(** * ch341eeprom-factory: the EEPROM image builder and the batch loop

    A shallow embedding of [ch341_factory.py].  Python values are modelled
    as follows:
    - [int] is [Z]; a [bytearray] is a [list Z] whose elements are byte
      values (the range check of item assignment is written out);
    - [str] is the list of its Unicode code points, so that [len] is
      [length] and [encode('ascii')] fails on a code point above 127;
    - an exception is a value of [exn]; code that may raise returns a
      [result];
    - the two-element sequences [VID] and [PID] are pairs. *)

From Stdlib Require Import ZArith NArith Ascii String DecimalString.
From Stdlib Require Import DecimalFacts DecimalPos.
From stdpp Require Import base numbers option list gmap strings.

Open Scope Z_scope.

(** ** Python strings and exceptions *)

Abbreviation str := (list N).

(** The code points of a string literal of the source. *)
Definition lit (s : string) : str :=
  N_of_ascii <$> list_ascii_of_string s.

Inductive exn :=
| ValueError (msg : str)
| IndexError (msg : str)
| OverflowError (msg : str)
| MemoryError
| UnicodeEncodeError (start : nat)
| CalledProcessError (returncode : Z) (cmd : list str)
| FileNotFoundError (path : str)
| EOFError.

Inductive result (A : Type) :=
| Ok (a : A)
| Raise (e : exn).
Arguments Ok {A} a.
Arguments Raise {A} e.

#[global] Instance result_ret : MRet result := λ A a, Ok a.
#[global] Instance result_bind : MBind result := λ A B f r,
  match r with
  | Ok a => f a
  | Raise e => Raise e
  end.

(** ** [bytearray] primitives *)

(** The largest [Py_ssize_t], on a 64-bit build of CPython. *)
Definition PY_SSIZE_T_MAX : Z := 9223372036854775807.

(** [bytearray(n)]: [n] zero bytes.  A count that does not fit a
    [Py_ssize_t] raises [OverflowError]; a negative count raises
    [ValueError]; the largest count raises [MemoryError], its buffer of
    [n + 1] bytes being out of range.  A machine short of memory raises
    [MemoryError] for smaller counts as well: which ones is a fact about
    the machine and not about the script, and a size is taken below to be
    one that can be allocated only when it is a given number or when a
    build of that size has returned. *)
Definition bytearray (n : Z) : result (list Z) :=
  if (n <? - PY_SSIZE_T_MAX - 1) || (PY_SSIZE_T_MAX <? n)
  then Raise (OverflowError
                (lit "cannot fit 'int' into an index-sized integer"))
  else if n <? 0 then Raise (ValueError (lit "negative count"))
  else if n =? PY_SSIZE_T_MAX then Raise MemoryError
  else Ok (replicate (Z.to_nat n) 0).

(** [rom[i] = v] for a non-negative constant index [i]: the value must be
    a byte and the index must be inside the array.  CPython converts the
    value before it checks the index; the order shows only when both
    checks fail. *)
Definition setitem (rom : list Z) (i : nat) (v : Z) : result (list Z) :=
  if (v <? 0) || (256 <=? v)
  then Raise (ValueError (lit "byte must be in range(0, 256)"))
  else if (i <? length rom)%nat then Ok (<[i:=v]> rom)
  else Raise (IndexError (lit "bytearray index out of range")).

(** [rom[lo:hi] = x] for non-negative bounds.  Python clamps both bounds
    to the length of the array, moves [hi] up to [lo] when it is smaller,
    and replaces the slice by [x] whatever the length of [x]: the array
    grows or shrinks by the difference. *)
Definition setslice (rom : list Z) (lo hi : nat) (x : list Z) : list Z :=
  take lo rom ++ x ++ drop (lo `max` hi) rom.

(** [rom[lo:hi]] for non-negative bounds. *)
Definition getslice (rom : list Z) (lo hi : nat) : list Z :=
  take (hi - lo) (drop lo rom).

(** [s.encode('ascii')]: one byte per code point; the first code point
    above 127 raises, at its position. *)
Fixpoint encode_from (pos : nat) (s : str) : result (list Z) :=
  match s with
  | [] => Ok []
  | c :: s' =>
      if (c <? 128)%N
      then bs ← encode_from (S pos) s'; Ok (Z.of_N c :: bs)
      else Raise (UnicodeEncodeError pos)
  end.

Definition encode_ascii (s : str) : result (list Z) := encode_from 0 s.

(** ** The descriptor *)

Record eepCH341 := {
  size : str;
  size_bytes : Z;
  majorVersion : Z;
  minorVersion : Z;
  serial : str;
  product : str;
  MODE : Z;
  CFG : Z;
  VID : Z * Z;
  PID : Z * Z
}.

(** [eepCH341.__init__] with every parameter explicit. *)
Definition __init__ (majorVersion minorVersion : Z) (serial product : str)
    (size_str : str) (size_bytes : Z) (MODE CFG : Z) (VID PID : Z * Z)
  : result eepCH341 :=
  if (length serial =? 8)%nat then
    if (length product <? 95)%nat then
      Ok {| size := size_str; size_bytes := size_bytes;
            majorVersion := majorVersion; minorVersion := minorVersion;
            serial := serial; product := product;
            MODE := MODE; CFG := CFG; VID := VID; PID := PID |}
    else Raise (ValueError (lit "Product string too long, max 95 characters"))
  else Raise (ValueError (lit "Serial number must be 8 digits")).

(** The constructor called with the defaults of the source for the last
    six parameters, as the batch loop calls it. *)
Definition eepCH341_default (majorVersion minorVersion : Z)
    (serial product : str) : result eepCH341 :=
  __init__ majorVersion minorVersion serial product
    (lit "24c02") 256 0x12 0xCC (0x1A, 0x86) (0x55, 0x12).

(** [eepCH341.bytes] *)
Definition bytes (self : eepCH341) : result (list Z) :=
  rom ← bytearray (size_bytes self - 1);
  rom ← setitem rom 0 0x53;
  rom ← setitem rom 1 (MODE self);
  rom ← setitem rom 2 (CFG self);
  rom ← setitem rom 3 0x00;
  rom ← setitem rom 4 (VID self).2;
  rom ← setitem rom 5 (VID self).1;
  rom ← setitem rom 6 (PID self).2;
  rom ← setitem rom 7 (PID self).1;
  rom ← setitem rom 8 (minorVersion self);
  rom ← setitem rom 9 (majorVersion self);
  serial_bytes ← encode_ascii (serial self);
  let rom := setslice rom 16 23 serial_bytes in
  product_bytes ← encode_ascii (product self);
  let rom := setslice rom 32 (32 + length product_bytes) product_bytes in
  Ok rom.

(** [bytearray.hex()]: two lowercase hexadecimal digits per byte. *)
Definition hex_digit (n : Z) : N :=
  Z.to_N (if n <? 10 then 48 + n else 87 + n).

Definition bytearray_hex (rom : list Z) : str :=
  rom ≫= λ b, [hex_digit (b / 16); hex_digit (b `mod` 16)].

(** [eepCH341.hex] *)
Definition hex (self : eepCH341) : result str :=
  rom ← bytes self; Ok (bytearray_hex rom).

(** ** The world of the script: files, the programmer, the terminal *)

Definition str_of_int (z : Z) : str := lit (NilEmpty.string_of_int (Z.to_int z)).

(** Everything the script does to its environment, in the order it
    happens. *)
Inductive event :=
| Prompt (text : str)
| Print (text : str)
| PrintBytes (data : list Z)
| Remove (path : str)
| Create (path : str)
| Write (path : str) (data : list Z)
| ReadFile (path : str)
| Run (argv : list str) (returncode : Z).

Section Script.

(** The external programmer is a black box: it sees its argument vector,
    the attached device and the files, and leaves an exit status. *)
Context {Dev : Type}.
Variable exec :
  list str → Dev → gmap str (list Z) → Z * Dev * gmap str (list Z).

Record state := {
  cur_serial : Z;
  files : gmap str (list Z);
  device : Dev;
  stdin : list str;
  events : list event
}.

Definition with_files (s : state) (fs : gmap str (list Z)) : state :=
  {| cur_serial := cur_serial s; files := fs; device := device s;
     stdin := stdin s; events := events s |}.

Definition with_events (s : state) (es : list event) : state :=
  {| cur_serial := cur_serial s; files := files s; device := device s;
     stdin := stdin s; events := es |}.

(** A statement of the script: it may raise, and what it did before
    raising stays done. *)
Definition M (A : Type) : Type := state → result A * state.

#[global] Instance M_ret : MRet M := λ A a s, (Ok a, s).
#[global] Instance M_bind : MBind M := λ A B f m s,
  match m s with
  | (Ok a, s') => f a s'
  | (Raise e, s') => (Raise e, s')
  end.

Definition raise {A} (e : exn) : M A := λ s, (Raise e, s).

Definition lift {A} (r : result A) : M A := λ s, (r, s).

Definition emit (e : event) : M unit :=
  λ s, (Ok (), with_events s (events s ++ [e])).

(** [os.path.exists(path)] *)
Definition os_path_exists (path : str) : M bool :=
  λ s, (Ok (bool_decide (is_Some (files s !! path))), s).

(** [os.remove(path)] *)
Definition os_remove (path : str) : M unit :=
  λ s, match files s !! path with
       | Some _ =>
           (Ok (), with_events (with_files s (delete path (files s)))
                     (events s ++ [Remove path]))
       | None => (Raise (FileNotFoundError path), s)
       end.

(** [open(path, "wb")]: the file exists and is empty from here on. *)
Definition open_wb (path : str) : M unit :=
  λ s, (Ok (), with_events (with_files s (<[path:=[]]> (files s)))
                 (events s ++ [Create path])).

(** [f.write(data)] on the file just opened by [open_wb]. *)
Definition f_write (path : str) (data : list Z) : M unit :=
  λ s, (Ok (), with_events (with_files s (alter (λ old, old ++ data) path (files s)))
                 (events s ++ [Write path data])).

(** [open(path, "rb")] followed by [f.read()] *)
Definition open_rb_read (path : str) : M (list Z) :=
  λ s, match files s !! path with
       | Some data => (Ok data, with_events s (events s ++ [ReadFile path]))
       | None => (Raise (FileNotFoundError path), s)
       end.

(** [subprocess.run(argv, check=True)] for a programmer that runs and
    leaves an exit status.  An executable that cannot be started makes
    [subprocess.run] raise before anything is run; that outcome is not
    among those of [exec]. *)
Definition subprocess_run (argv : list str) : M Z :=
  λ s, let '(code, dev, fs) := exec argv (device s) (files s) in
       let s' := {| cur_serial := cur_serial s; files := fs; device := dev;
                    stdin := stdin s; events := events s ++ [Run argv code] |} in
       if code =? 0 then (Ok code, s')
       else (Raise (CalledProcessError code argv), s').

(** [input(prompt)] *)
Definition input (prompt : str) : M str :=
  λ s, match stdin s with
       | line :: rest =>
           (Ok line,
            {| cur_serial := cur_serial s; files := files s; device := device s;
               stdin := rest; events := events s ++ [Prompt prompt] |})
       | [] => (Raise EOFError, with_events s (events s ++ [Prompt prompt]))
       end.

Definition print (text : str) : M unit := emit (Print text).

(** ** The device operations *)

Definition read_eeprom_bin : str := lit "read_eeprom.bin".
Definition write_eeprom_bin : str := lit "write_eeprom.bin".
Definition verify_eeprom_bin : str := lit "verify_eeprom.bin".

(** [eepCH341.erase] *)
Definition erase (self : eepCH341) (bin_ch341eeprom : str) : M Z :=
  r ← subprocess_run [bin_ch341eeprom; lit "--erase"; lit "--size"; size self];
  mret r.

(** [eepCH341.read] *)
Definition read (self : eepCH341) (bin_ch341eeprom : str) : M (list Z) :=
  ex ← os_path_exists read_eeprom_bin;
  _ ← (if ex : bool then os_remove read_eeprom_bin else mret ());
  r ← subprocess_run [bin_ch341eeprom; lit "--read"; read_eeprom_bin;
                       lit "--size"; size self];
  data ← open_rb_read read_eeprom_bin;
  _ ← os_remove read_eeprom_bin;
  mret data.

(** [eepCH341.flash] *)
Definition flash (self : eepCH341) (bin_ch341eeprom : str) : M Z :=
  ex ← os_path_exists write_eeprom_bin;
  _ ← (if ex : bool then os_remove write_eeprom_bin else mret ());
  _ ← open_wb write_eeprom_bin;
  rom ← lift (bytes self);
  _ ← f_write write_eeprom_bin rom;
  r ← subprocess_run [bin_ch341eeprom; lit "--write"; write_eeprom_bin;
                       lit "--size"; size self];
  _ ← os_remove write_eeprom_bin;
  mret r.

(** [eepCH341.verify] *)
Definition verify (self : eepCH341) (bin_ch341eeprom : str) : M Z :=
  ex ← os_path_exists verify_eeprom_bin;
  _ ← (if ex : bool then os_remove verify_eeprom_bin else mret ());
  _ ← open_wb verify_eeprom_bin;
  rom ← lift (bytes self);
  _ ← f_write verify_eeprom_bin rom;
  r ← subprocess_run [bin_ch341eeprom; lit "--verify"; verify_eeprom_bin;
                       lit "--size"; size self];
  _ ← os_remove verify_eeprom_bin;
  mret r.

(** ** The batch loop *)

(** The parsed command line. *)
Record args := {
  args_serial : Z;
  args_product : str;
  args_majorVersion : Z;
  args_minorVersion : Z;
  args_bin : str
}.

Definition get_cur_serial : M Z := λ s, (Ok (cur_serial s), s).

Definition set_cur_serial (c : Z) : M unit :=
  λ s, (Ok (), {| cur_serial := c; files := files s; device := device s;
                  stdin := stdin s; events := events s |}).

(** The body of [while True]. *)
Definition iteration (a : args) : M unit :=
  cur ← get_cur_serial;
  _ ← input (lit "Attach serial number: " ++ str_of_int cur);
  cur ← get_cur_serial;
  eeprom ← lift (eepCH341_default (args_majorVersion a) (args_minorVersion a)
                   (str_of_int cur) (args_product a));
  read_init ← read eeprom (args_bin a);
  _ ← (if bool_decide (Z.of_nat (length read_init) ≠ size_bytes eeprom)
       then raise (ValueError
              (lit "EEPROM read error: expected " ++ str_of_int (size_bytes eeprom)
               ++ lit " bytes, got " ++ str_of_int (Z.of_nat (length read_init))
               ++ lit " bytes"))
       else mret ());
  _ ← erase eeprom (args_bin a);
  _ ← flash eeprom (args_bin a);
  _ ← verify eeprom (args_bin a);
  cur ← get_cur_serial;
  _ ← print (lit "Flashed EEPROM for " ++ args_product a ++ lit " " ++ str_of_int cur);
  read_again ← read eeprom (args_bin a);
  _ ← print (lit "New EEPROM Contents:");
  _ ← emit (PrintBytes (getslice read_again 0 127));
  _ ← print (lit "");
  cur ← get_cur_serial;
  set_cur_serial (cur + 1).

(** [while True] run for at most [fuel] iterations.  The loop has no exit
    but an exception: [None] means that it is still running. *)
Fixpoint batch_loop (a : args) (fuel : nat) (s : state) : option exn * state :=
  match fuel with
  | O => (None, s)
  | S fuel' =>
      match iteration a s with
      | (Ok _, s') => batch_loop a fuel' s'
      | (Raise e, s') => (Some e, s')
      end
  end.

(** The script from [cur_serial = int(args.serial)] on. *)
Definition main (a : args) (fuel : nat) (fs : gmap str (list Z)) (dev : Dev)
    (lines : list str) : option exn * state :=
  batch_loop a fuel
    {| cur_serial := args_serial a; files := fs; device := dev;
       stdin := lines; events := [] |}.

End Script.

(** ** Vocabulary of the specification *)

(** The length invariant that [__init__] checks. *)
Definition valid (self : eepCH341) : Prop :=
  length (serial self) = 8%nat ∧ (length (product self) < 95)%nat.

Definition is_byte (v : Z) : Prop := 0 ≤ v < 256.

Definition is_ascii (s : str) : Prop := Forall (λ c, (c < 128)%N) s.

Definition ascii_bytes (s : str) : list Z := Z.of_N <$> s.

(** A size for which [bytes] returns for some descriptor: the array of
    [n - 1] bytes is allocated and is long enough for the header. *)
Definition buildable_size (n : Z) : Prop :=
  ∃ d rom, size_bytes d = n ∧ bytes d = Ok rom.

(** The decimal digits, [0] to [9]. *)
Definition is_digit (c : N) : Prop := (48 ≤ c ≤ 57)%N.

(** The characters [0] to [9] and [a] to [f]. *)
Definition is_hex_digit (c : N) : Prop :=
  (48 ≤ c ≤ 57)%N ∨ (97 ≤ c ≤ 102)%N.

(** The ten header fields are byte values. *)
Definition header_fields_are_bytes (self : eepCH341) : Prop :=
  is_byte (MODE self) ∧ is_byte (CFG self) ∧
  is_byte (VID self).1 ∧ is_byte (VID self).2 ∧
  is_byte (PID self).1 ∧ is_byte (PID self).2 ∧
  is_byte (minorVersion self) ∧ is_byte (majorVersion self).

(** Bytes 0 to 9 of the image. *)
Definition header (self : eepCH341) : list Z :=
  [0x53; MODE self; CFG self; 0x00; (VID self).2; (VID self).1;
   (PID self).2; (PID self).1; minorVersion self; majorVersion self].

(** The field map of the header: bytes 0 to 15 and 24 to 31. *)
Definition header_map (self : eepCH341) (rom : list Z) : Prop :=
  rom !! 0%nat = Some 0x53 ∧
  rom !! 1%nat = Some (MODE self) ∧
  rom !! 2%nat = Some (CFG self) ∧
  rom !! 3%nat = Some 0x00 ∧
  rom !! 4%nat = Some (VID self).2 ∧
  rom !! 5%nat = Some (VID self).1 ∧
  rom !! 6%nat = Some (PID self).2 ∧
  rom !! 7%nat = Some (PID self).1 ∧
  rom !! 8%nat = Some (minorVersion self) ∧
  rom !! 9%nat = Some (majorVersion self) ∧
  (∀ i : nat, (10 ≤ i ≤ 15)%nat → rom !! i = Some 0) ∧
  (∀ i : nat, (24 ≤ i ≤ 31)%nat → rom !! i = Some 0).

(** The two strings: the serial is [rom[16:24]], the product starts at 32
    and only zeros follow it. *)
Definition strings_map (self : eepCH341) (rom : list Z) : Prop :=
  getslice rom 16 24 = ascii_bytes (serial self) ∧
  getslice rom 32 (32 + length (product self)) = ascii_bytes (product self) ∧
  Forall (λ b, b = 0) (drop (32 + length (product self)) rom).

(** A descriptor with another product string. *)
Definition with_product (self : eepCH341) (p : str) : eepCH341 :=
  {| size := size self; size_bytes := size_bytes self;
     majorVersion := majorVersion self; minorVersion := minorVersion self;
     serial := serial self; product := p;
     MODE := MODE self; CFG := CFG self; VID := VID self; PID := PID self |}.

(** A descriptor with another major version. *)
Definition with_majorVersion (self : eepCH341) (v : Z) : eepCH341 :=
  {| size := size self; size_bytes := size_bytes self;
     majorVersion := v; minorVersion := minorVersion self;
     serial := serial self; product := product self;
     MODE := MODE self; CFG := CFG self; VID := VID self; PID := PID self |}.

(** ** Descriptors and programmers used as examples *)

(** The descriptor of the first unit of a batch, all defaults. *)
Definition toad : eepCH341 :=
  {| size := lit "24c02"; size_bytes := 256;
     majorVersion := 1; minorVersion := 2;
     serial := lit "13374204"; product := lit "MESHTOAD";
     MODE := 0x12; CFG := 0xCC; VID := (0x1A, 0x86); PID := (0x55, 0x12) |}.

(** The same descriptor for a part of [n] bytes. *)
Definition toad_sized (size_str : str) (n : Z) : eepCH341 :=
  {| size := size_str; size_bytes := n;
     majorVersion := 1; minorVersion := 2;
     serial := lit "13374204"; product := lit "MESHTOAD";
     MODE := 0x12; CFG := 0xCC; VID := (0x1A, 0x86); PID := (0x55, 0x12) |}.

(** A serial of eight characters, the last one U+00E9. *)
Definition serial_e_acute : str := lit "1337420" ++ [233%N].

(** The invocations of the programmer among some events, with their exit
    statuses. *)
Definition runs (es : list event) : list (list str * Z) :=
  omap (λ e, match e with Run argv code => Some (argv, code) | _ => None end) es.

(** The argument vectors of the four operations. *)
Definition erase_argv (size_str bin : str) : list str :=
  [bin; lit "--erase"; lit "--size"; size_str].
Definition read_argv (size_str bin : str) : list str :=
  [bin; lit "--read"; lit "read_eeprom.bin"; lit "--size"; size_str].
Definition write_argv (size_str bin : str) : list str :=
  [bin; lit "--write"; lit "write_eeprom.bin"; lit "--size"; size_str].
Definition verify_argv (size_str bin : str) : list str :=
  [bin; lit "--verify"; lit "verify_eeprom.bin"; lit "--size"; size_str].

(** The invocations of one full iteration of the batch loop, which builds
    its descriptor with the default size label. *)
Definition iteration_calls (bin : str) : list (list str) :=
  [read_argv (lit "24c02") bin; erase_argv (lit "24c02") bin;
   write_argv (lit "24c02") bin; verify_argv (lit "24c02") bin;
   read_argv (lit "24c02") bin].

Section ScriptVocabulary.

Context {Dev : Type}.

(** What a statement of the script does to the serial counter and which
    invocations it makes.  When it returns, the counter has moved by [d]
    and the invocations are [calls], all with status 0.  When it raises,
    the counter has not moved, the invocations made are the first ones of
    [calls], and one that left a status other than 0 is the cause of the
    exception. *)
Definition tracked {A} (m : M (Dev:=Dev) A) (d : Z) (calls : list (list str)) : Prop :=
  ∀ s r s', m s = (r, s') →
  ∃ new, events s' = events s ++ new ∧
    match r with
    | Ok _ =>
        cur_serial s' = cur_serial s + d ∧
        runs new = (λ argv, (argv, 0)) <$> calls
    | Raise e =>
        cur_serial s' = cur_serial s ∧
        (runs new).*1 `prefix_of` calls ∧
        ∀ argv code, (argv, code) ∈ runs new → code ≠ 0 →
                     e = CalledProcessError code argv
    end.

(** The discipline of a temporary file: a file of that name left by an
    earlier run is deleted first, before anything else happens, and when
    the operation returns the file is gone. *)
Definition temp_file_discipline {A} (op : M (Dev:=Dev) A) (path : str) : Prop :=
  ∀ s r s', op s = (r, s') →
  (is_Some (files s !! path) →
   ∃ rest, events s' = events s ++ Remove path :: rest) ∧
  (∀ a, r = Ok a → files s' !! path = None).

End ScriptVocabulary.

Section ConfirmationsVocabulary.

Context {Dev : Type}.

(** A statement that returns has read [k] lines of the operator's
    input. *)
Definition consumes {A} (m : M (Dev:=Dev) A) (k : nat) : Prop :=
  ∀ s r s', m s = (r, s') →
  match r with
  | Ok _ => ∃ used, length used = k ∧ stdin s = used ++ stdin s'
  | Raise _ => True
  end.

(** The events of [s'] are those of [s] followed by others. *)
Definition extends (s s' : state (Dev:=Dev)) : Prop :=
  ∃ new, events s' = events s ++ new.

(** The events of [s'] are those of [s] followed by others, [e] among
    them. *)
Definition emitted (e : event) (s s' : state (Dev:=Dev)) : Prop :=
  ∃ new, events s' = events s ++ new ∧ e ∈ new.

End ConfirmationsVocabulary.

(** ** A simulated programmer

    The device is the content of its EEPROM.  [fail] names an instruction
    that the programmer refuses with status 1. *)
Definition programmer (fail : option str) (argv : list str) (dev : list Z)
    (fs : gmap str (list Z)) : Z * list Z * gmap str (list Z) :=
  match argv with
  | _ :: flag :: rest =>
      if bool_decide (fail = Some flag) then (1, dev, fs)
      else if bool_decide (flag = lit "--erase")
      then (0, replicate (length dev) 0xFF, fs)
      else
        match rest with
        | path :: _ =>
            if bool_decide (flag = lit "--read") then (0, dev, <[path:=dev]> fs)
            else if bool_decide (flag = lit "--write") then
              match fs !! path with
              | Some data => (0, data, fs)
              | None => (1, dev, fs)
              end
            else if bool_decide (flag = lit "--verify") then
              match fs !! path with
              | Some data => (if bool_decide (data = dev) then 0 else 1, dev, fs)
              | None => (1, dev, fs)
              end
            else (2, dev, fs)
        | [] => (2, dev, fs)
        end
  | _ => (2, dev, fs)
  end.

(** The command line with its defaults. *)
Definition default_args : args :=
  {| args_serial := 13374204; args_product := lit "MESHTOAD";
     args_majorVersion := 1; args_minorVersion := 2;
     args_bin := lit "/home/vidplace7/Documents/GitHub/ch341eeprom/ch341eeprom" |}.

(** The operator confirms once, a part of [n] bytes is attached, and no
    temporary file is around, or a stale image is. *)
Definition bench (n : nat) (fs : gmap str (list Z)) : state (Dev:=list Z) :=
  {| cur_serial := 13374204; files := fs; device := replicate n 0xFF;
     stdin := [[]]; events := [] |}.

(** The image of [toad], computed. *)
Definition toad_image : list Z :=
  Eval vm_compute in
    match bytes toad with
    | Ok rom => rom
    | Raise _ => []
    end.

(** The same bench with the counter at [c]. *)
Definition bench_at (c : Z) (n : nat) (fs : gmap str (list Z))
  : state (Dev:=list Z) :=
  {| cur_serial := c; files := fs; device := replicate n 0xFF;
     stdin := [[]]; events := [] |}.

(** The command line with [--major-version 300]. *)
Definition args_version_300 : args :=
  {| args_serial := 13374204; args_product := lit "MESHTOAD";
     args_majorVersion := 300; args_minorVersion := 2;
     args_bin := lit "/home/vidplace7/Documents/GitHub/ch341eeprom/ch341eeprom" |}.

(** * Properties of the image builder *)

(** ** The primitives *)

Lemma length_lit_serial : length (lit "13374204") = 8%nat.
Proof. reflexivity. Qed.

Lemma encode_from_Ok pos s bs :
  encode_from pos s = Ok bs → is_ascii s ∧ bs = ascii_bytes s.
Proof.
  revert pos bs. induction s as [|c s IH]; intros pos bs H; simpl in H.
  - injection H as <-. split; [constructor | reflexivity].
  - destruct (c <? 128)%N eqn:Hc; [|discriminate].
    destruct (encode_from (S pos) s) as [bs'|e] eqn:E; simpl in H; [|discriminate].
    injection H as <-. destruct (IH _ _ E) as [Ha ->].
    split; [|reflexivity]. constructor; [|exact Ha].
    by apply N.ltb_lt.
Qed.

Lemma encode_from_ascii pos s :
  is_ascii s → encode_from pos s = Ok (ascii_bytes s).
Proof.
  intros H. revert pos. induction H as [|c s Hc _ IH]; intros pos; simpl.
  - reflexivity.
  - apply N.ltb_lt in Hc. rewrite Hc, IH. reflexivity.
Qed.

Lemma encode_from_not_ascii pos s :
  ¬ is_ascii s → ∃ p, encode_from pos s = Raise (UnicodeEncodeError p).
Proof.
  revert pos. induction s as [|c s IH]; intros pos H; simpl.
  - destruct H. constructor.
  - destruct (c <? 128)%N eqn:Hc; [|by eexists].
    destruct (IH (S pos)) as [p Hp].
    + intros Hs. apply H. constructor; [by apply N.ltb_lt | done].
    + exists p. by rewrite Hp.
Qed.

Lemma length_ascii_bytes s : length (ascii_bytes s) = length s.
Proof. apply length_fmap. Qed.

Lemma bytearray_Ok n :
  0 ≤ n < PY_SSIZE_T_MAX → bytearray n = Ok (replicate (Z.to_nat n) 0).
Proof.
  intros Hn. unfold bytearray.
  replace (n <? - PY_SSIZE_T_MAX - 1) with false
    by (symmetry; apply Z.ltb_ge; unfold PY_SSIZE_T_MAX in *; lia).
  replace (PY_SSIZE_T_MAX <? n) with false by (symmetry; apply Z.ltb_ge; lia).
  replace (n <? 0) with false by (symmetry; apply Z.ltb_ge; lia).
  replace (n =? PY_SSIZE_T_MAX) with false by (symmetry; apply Z.eqb_neq; lia).
  reflexivity.
Qed.

Lemma bytearray_Ok_inv n rom :
  bytearray n = Ok rom →
  0 ≤ n < PY_SSIZE_T_MAX ∧ rom = replicate (Z.to_nat n) 0.
Proof.
  unfold bytearray. intros H.
  destruct ((n <? - PY_SSIZE_T_MAX - 1) || (PY_SSIZE_T_MAX <? n)) eqn:H1;
    [discriminate|].
  destruct (n <? 0) eqn:H2; [discriminate|].
  destruct (n =? PY_SSIZE_T_MAX) eqn:H3; [discriminate|].
  injection H as <-. apply orb_false_iff in H1 as [_ H1].
  apply Z.ltb_ge in H1, H2. apply Z.eqb_neq in H3. split; [lia | done].
Qed.

Lemma bytearray_OverflowError n :
  n < - PY_SSIZE_T_MAX - 1 ∨ PY_SSIZE_T_MAX < n →
  bytearray n = Raise (OverflowError
                         (lit "cannot fit 'int' into an index-sized integer")).
Proof.
  intros Hn. unfold bytearray.
  destruct ((n <? - PY_SSIZE_T_MAX - 1) || (PY_SSIZE_T_MAX <? n)) eqn:H1;
    [reflexivity|].
  apply orb_false_iff in H1 as [H1 H2]. apply Z.ltb_ge in H1, H2. lia.
Qed.

Lemma bytearray_ValueError n :
  - PY_SSIZE_T_MAX - 1 ≤ n < 0 →
  bytearray n = Raise (ValueError (lit "negative count")).
Proof.
  intros Hn. unfold bytearray.
  destruct ((n <? - PY_SSIZE_T_MAX - 1) || (PY_SSIZE_T_MAX <? n)) eqn:H1.
  - apply orb_true_iff in H1 as [H1|H1]; apply Z.ltb_lt in H1;
      unfold PY_SSIZE_T_MAX in *; lia.
  - destruct (n <? 0) eqn:H2; [reflexivity|]. apply Z.ltb_ge in H2. lia.
Qed.

Lemma setitem_Ok_inv rom i v rom' :
  setitem rom i v = Ok rom' →
  is_byte v ∧ (i < length rom)%nat ∧ rom' = <[i:=v]> rom.
Proof.
  unfold setitem, is_byte. intros H.
  destruct (v <? 0) eqn:H0; [discriminate|].
  destruct (256 <=? v) eqn:H1; [discriminate|]. simpl in H.
  destruct (i <? length rom)%nat eqn:H2; [|discriminate].
  injection H as <-.
  apply Z.ltb_ge in H0. apply Z.leb_gt in H1. apply Nat.ltb_lt in H2.
  repeat split; done.
Qed.

Lemma setitem_Ok rom i v :
  is_byte v → (i < length rom)%nat → setitem rom i v = Ok (<[i:=v]> rom).
Proof.
  unfold setitem, is_byte. intros [H0 H1] H2.
  apply Z.ltb_ge in H0. apply Z.leb_gt in H1. apply Nat.ltb_lt in H2.
  by rewrite H0, H1, H2.
Qed.

Lemma setitem_index_error i v :
  is_byte v → ∀ rom, (length rom ≤ i)%nat →
  setitem rom i v = Raise (IndexError (lit "bytearray index out of range")).
Proof.
  unfold setitem, is_byte. intros [H0 H1] rom H2.
  apply Z.ltb_ge in H0. apply Z.leb_gt in H1. apply Nat.ltb_ge in H2.
  by rewrite H0, H1, H2.
Qed.

(** ** [bytes] in closed form *)

Ltac bind_inv H :=
  match type of H with
  | mbind _ ?m = Ok _ =>
      let E := fresh "E" in
      destruct m eqn:E; simpl in H; [|discriminate H]
  end.

(** When [bytes] returns, the array was long enough for the header, the
    header fields were bytes, both strings were ASCII, and the buffer is
    the header followed by zeros with the two slices assigned. *)
Lemma bytes_Ok_inv self rom :
  bytes self = Ok rom →
  ∃ k : nat,
    size_bytes self = Z.of_nat k + 11 ∧
    header_fields_are_bytes self ∧
    is_ascii (serial self) ∧ is_ascii (product self) ∧
    rom = setslice
            (setslice (header self ++ replicate k 0) 16 23
               (ascii_bytes (serial self)))
            32 (32 + length (product self)) (ascii_bytes (product self)).
Proof.
  unfold bytes. intros H.
  bind_inv H. do 10 bind_inv H. do 2 bind_inv H.
  injection H as <-.
  apply bytearray_Ok_inv in E as [Hn ->].
  repeat match goal with
         | E : setitem _ _ _ = Ok _ |- _ =>
             apply setitem_Ok_inv in E; destruct E as (? & ? & ->)
         end.
  repeat match goal with
         | E : encode_ascii _ = Ok _ |- _ =>
             unfold encode_ascii in E; apply encode_from_Ok in E as [? ->]
         end.
  match goal with
  | Hl : (9 < _)%nat |- _ =>
      rewrite !length_insert, length_replicate in Hl; rename Hl into Hlen
  end.
  assert (∃ k, Z.to_nat (size_bytes self - 1) = (10 + k)%nat) as [k Hk]
    by (exists (Z.to_nat (size_bytes self - 1) - 10)%nat; lia).
  rewrite Hk. exists k.
  split; [lia|]. split; [unfold header_fields_are_bytes; done|].
  split; [done|]. split; [done|].
  rewrite length_ascii_bytes. reflexivity.
Qed.

(** The converse: under those conditions [bytes] does return. *)
Lemma bytes_Ok_size_bound self rom :
  bytes self = Ok rom → 0 ≤ size_bytes self - 1 < PY_SSIZE_T_MAX.
Proof.
  unfold bytes. intros H. bind_inv H.
  by apply bytearray_Ok_inv in E as [Hn _].
Qed.

Lemma bytes_Ok self (k : nat) :
  size_bytes self = Z.of_nat k + 11 →
  size_bytes self - 1 < PY_SSIZE_T_MAX →
  header_fields_are_bytes self →
  is_ascii (serial self) → is_ascii (product self) →
  bytes self =
    Ok (setslice
          (setslice (header self ++ replicate k 0) 16 23
             (ascii_bytes (serial self)))
          32 (32 + length (product self)) (ascii_bytes (product self))).
Proof.
  intros Hsz Hmax (Hm & Hc & Hv1 & Hv2 & Hp1 & Hp2 & Hmin & Hmaj) Hs Hp.
  unfold bytes. rewrite bytearray_Ok by lia.
  replace (Z.to_nat (size_bytes self - 1)) with (10 + k)%nat by lia.
  cbn [mbind result_bind].
  repeat (rewrite setitem_Ok;
          [ cbn [mbind result_bind]
          | done || (unfold is_byte; lia)
          | rewrite ?length_insert, length_replicate; lia ]).
  unfold encode_ascii. rewrite !encode_from_ascii by done.
  cbn [mbind result_bind]. rewrite length_ascii_bytes. reflexivity.
Qed.

(** From 32 bytes on, the two slice assignments fall inside the array and
    the image is a concatenation of six fields.  The first assignment puts
    eight bytes in place of the seven of [rom[16:23]]: the array grows by
    one. *)
Lemma setslices_layout (h sb pb : list Z) (k : nat) :
  length h = 10%nat → length sb = 8%nat → (21 ≤ k)%nat →
  setslice (setslice (h ++ replicate k 0) 16 23 sb) 32 (32 + length pb) pb
  = h ++ replicate 6 0 ++ sb ++ replicate 8 0 ++ pb
      ++ replicate (k - 21 - length pb) 0.
Proof.
  intros Hh Hs Hk.
  do 11 (destruct h as [|? h]; try discriminate Hh).
  do 9 (destruct sb as [|? sb]; try discriminate Hs).
  replace k with (21 + (k - 21))%nat at 1 by lia.
  unfold setslice. rewrite (Nat.max_r 32) by lia.
  generalize (k - 21)%nat as j. intros j.
  cbn [replicate Nat.add app take drop Nat.max].
  rewrite drop_replicate. reflexivity.
Qed.

Lemma length_header self : length (header self) = 10%nat.
Proof. reflexivity. Qed.

(** The image of a valid descriptor of at least 32 bytes. *)
Lemma bytes_layout self rom :
  valid self → 32 ≤ size_bytes self → bytes self = Ok rom →
  rom = header self ++ replicate 6 0 ++ ascii_bytes (serial self)
          ++ replicate 8 0 ++ ascii_bytes (product self)
          ++ replicate (Z.to_nat (size_bytes self - 32) - length (product self)) 0.
Proof.
  intros [Hs Hp] Hsz H.
  destruct (bytes_Ok_inv _ _ H) as (k & Hk & _ & _ & _ & ->).
  rewrite <- (length_ascii_bytes (product self)).
  rewrite setslices_layout;
    [| apply length_header | by rewrite length_ascii_bytes | lia].
  repeat f_equal. lia.
Qed.

(** The length of the image: the size of the part, not one less. *)
Lemma bytes_length self rom :
  valid self → 32 ≤ size_bytes self → bytes self = Ok rom →
  Z.of_nat (length rom) = size_bytes self `max` (32 + Z.of_nat (length (product self))).
Proof.
  intros Hv Hsz H. rewrite (bytes_layout _ _ Hv Hsz H).
  destruct Hv as [Hs Hp].
  rewrite !length_app, !length_replicate, !length_ascii_bytes, Hs, length_header.
  lia.
Qed.


(** ** The length of the image *)

(** C1 (the code departs from the claim).  The descriptor of the example
    of the specification, built with the defaults, is valid and [bytes]
    returns a buffer of 256 bytes for it: [size_bytes], not
    [size_bytes - 1].  The array is allocated with [size_bytes - 1] zero
    bytes and the assignment [rom[16:23] = serial_bytes] puts eight bytes
    in place of seven. *)
Theorem bytes_default_length_is_size_bytes :
  eepCH341_default 1 2 (lit "13374204") (lit "MESHTOAD") = Ok toad ∧
  valid toad ∧
  ∃ rom, bytes toad = Ok rom ∧
         length rom = 256%nat ∧
         Z.of_nat (length rom) ≠ size_bytes toad - 1.
Proof.
  split; [reflexivity|]. split; [split; vm_compute; lia|].
  destruct (bytes toad) as [rom|e] eqn:E; [|vm_compute in E; discriminate E].
  exists rom. split; [reflexivity|].
  assert (length rom = 256%nat) as Hlen.
  { vm_compute in E. injection E as <-. reflexivity. }
  split; [exact Hlen|]. rewrite Hlen. vm_compute. discriminate.
Qed.

(** ** Determinism *)

(** C2.  [bytes] is a function of the fields of the descriptor: two
    descriptors with the same size in bytes, versions, serial, product,
    mode, configuration, vendor and product identifiers give the same
    outcome, byte for byte (or the same exception).  The size label is not
    read. *)
Theorem bytes_deterministic (d1 d2 : eepCH341) :
  size_bytes d1 = size_bytes d2 →
  majorVersion d1 = majorVersion d2 →
  minorVersion d1 = minorVersion d2 →
  serial d1 = serial d2 →
  product d1 = product d2 →
  MODE d1 = MODE d2 →
  CFG d1 = CFG d2 →
  VID d1 = VID d2 →
  PID d1 = PID d2 →
  bytes d1 = bytes d2.
Proof.
  destruct d1, d2; simpl. intros -> -> -> -> -> -> -> -> ->. reflexivity.
Qed.

Lemma bytes_deterministic_witness :
  bytes (toad_sized (lit "24c02") 256) = bytes (toad_sized (lit "24c04") 256).
Proof.
  apply bytes_deterministic; reflexivity.
Defined.

(** ** The field map *)

Lemma buildable_size_bounds n :
  buildable_size n → 11 ≤ n ∧ n - 1 < PY_SSIZE_T_MAX.
Proof.
  intros (d & rom & <- & H).
  destruct (bytes_Ok_inv _ _ H) as (k & Hk & _).
  pose proof (bytes_Ok_size_bound _ _ H). lia.
Qed.

Lemma bytes_returns self :
  buildable_size (size_bytes self) → header_fields_are_bytes self →
  is_ascii (serial self) → is_ascii (product self) →
  ∃ rom, bytes self = Ok rom.
Proof.
  intros Hsz Hb Hs Hp. apply buildable_size_bounds in Hsz as [Hlo Hhi].
  eexists.
  apply (bytes_Ok self (Z.to_nat (size_bytes self - 11))); [lia | done..].
Qed.

Ltac split_serial self Hs :=
  let s := fresh "s" in
  destruct (serial self) as [|? s]; [discriminate Hs|];
  do 7 (destruct s as [|? s]; [discriminate Hs|]);
  destruct s; [|discriminate Hs].

(** C3, amended.  For a valid descriptor of at least 32 bytes, the
    buffer that [bytes] returns has the header field map: 0x53, mode,
    configuration, 0x00, the vendor identifier second element first, the
    product identifier second element first, minor and major version, and
    zeros at 10 to 15 and at 24 to 31. *)
Theorem bytes_header_map self rom :
  valid self → 32 ≤ size_bytes self →
  bytes self = Ok rom → header_map self rom.
Proof.
  intros Hv Hsz H. rewrite (bytes_layout _ _ Hv Hsz H).
  destruct Hv as [Hs _]. unfold ascii_bytes at 1.
  split_serial self Hs.
  unfold header_map, header. repeat split.
  - intros i Hi.
    assert (i = 10 ∨ i = 11 ∨ i = 12 ∨ i = 13 ∨ i = 14 ∨ i = 15)%nat
      as Hc by lia.
    destruct_or!; subst i; reflexivity.
  - intros i Hi.
    assert (i = 24 ∨ i = 25 ∨ i = 26 ∨ i = 27 ∨ i = 28 ∨ i = 29 ∨ i = 30
            ∨ i = 31)%nat as Hc by lia.
    destruct_or!; subst i; reflexivity.
Qed.

Lemma bytes_header_map_witness :
  ∃ rom, bytes toad = Ok rom ∧ header_map toad rom ∧
         rom !! 4%nat = Some 0x86 ∧ rom !! 5%nat = Some 0x1A.
Proof.
  assert (valid toad) as Hv by (split; vm_compute; lia).
  assert (32 ≤ size_bytes toad) as Hsz by (vm_compute; discriminate).
  assert (bytes toad = Ok toad_image) as Hrom by (vm_compute; reflexivity).
  pose proof (bytes_header_map toad toad_image Hv Hsz Hrom) as Hmap.
  exists toad_image. split; [exact Hrom|]. split; [exact Hmap|].
  destruct Hmap as (_ & _ & _ & _ & H4 & H5 & _).
  split; [exact H4 | exact H5].
Defined.

(** C3 as stated fails for a part too small for the layout: with
    [size_bytes = 11] the array has ten bytes, the slice [rom[16:23]] is
    empty and lies at the end, and the serial lands at offset 10. *)
Lemma header_map_fails_for_11_bytes :
  valid (toad_sized (lit "24c02") 11) ∧
  ∃ rom, bytes (toad_sized (lit "24c02") 11) = Ok rom ∧
         rom !! 10%nat = Some 49 ∧
         ¬ header_map (toad_sized (lit "24c02") 11) rom.
Proof.
  split; [split; vm_compute; lia|].
  eexists. split; [vm_compute; reflexivity|]. split; [reflexivity|].
  intros (_ & _ & _ & _ & _ & _ & _ & _ & _ & _ & H & _).
  specialize (H 10%nat ltac:(lia)). discriminate H.
Qed.

(** C4, amended.  For a valid descriptor of at least 32 bytes, the
    buffer that [bytes] returns holds the eight ASCII bytes of the serial
    at offsets 16 to 23, the ASCII bytes of the product from offset 32 for
    the length of the product, and zeros after it. *)
Theorem bytes_strings_map self rom :
  valid self → 32 ≤ size_bytes self →
  bytes self = Ok rom → strings_map self rom.
Proof.
  intros Hv Hsz H. rewrite (bytes_layout _ _ Hv Hsz H).
  destruct Hv as [Hs _]. unfold strings_map.
  pose proof (length_ascii_bytes (product self)) as Hlp.
  revert Hlp. generalize (ascii_bytes (product self)) as pb. intros pb Hlp.
  pose proof (length_ascii_bytes (serial self)) as Hls. rewrite Hs in Hls.
  revert Hls. generalize (ascii_bytes (serial self)) as sb. intros sb Hls.
  do 8 (destruct sb as [|? sb]; [discriminate Hls|]).
  destruct sb; [|discriminate Hls].
  unfold getslice, header. rewrite <- Hlp.
  cbn [app replicate drop Nat.add Nat.sub take].
  repeat split.
  - rewrite Nat.sub_0_r, drop_0. apply take_app_length.
  - rewrite drop_app_length. apply Forall_replicate. reflexivity.
Qed.

Lemma bytes_strings_map_witness :
  ∃ rom, bytes toad = Ok rom ∧
         getslice rom 16 24 = ascii_bytes (lit "13374204") ∧
         getslice rom 32 40 = ascii_bytes (lit "MESHTOAD") ∧
         Forall (λ b, b = 0) (drop 40 rom).
Proof.
  assert (valid toad) as Hv by (split; vm_compute; lia).
  assert (32 ≤ size_bytes toad) as Hsz by (vm_compute; discriminate).
  assert (bytes toad = Ok toad_image) as Hrom by (vm_compute; reflexivity).
  exists toad_image. split; [exact Hrom|].
  exact (bytes_strings_map toad toad_image Hv Hsz Hrom).
Defined.

(** C4 as stated fails for a part too small for the layout: with
    [size_bytes = 11] both strings are appended to the ten bytes of the
    header, the serial at offsets 10 to 17 and the product from 18 on. *)
Lemma strings_map_fails_for_11_bytes :
  valid (toad_sized (lit "24c02") 11) ∧
  ∃ rom, bytes (toad_sized (lit "24c02") 11) = Ok rom ∧
         getslice rom 10 18 = ascii_bytes (lit "13374204") ∧
         getslice rom 16 24 ≠ ascii_bytes (lit "13374204") ∧
         ¬ strings_map (toad_sized (lit "24c02") 11) rom.
Proof.
  split; [split; vm_compute; lia|].
  eexists. split; [vm_compute; reflexivity|]. split; [reflexivity|].
  split; [vm_compute; discriminate|].
  intros [H _]. vm_compute in H. discriminate H.
Qed.

(** * Properties of descriptor construction *)

Lemma init_valid mj mn s p sz n m c v pid self :
  __init__ mj mn s p sz n m c v pid = Ok self → valid self.
Proof.
  unfold __init__, valid. intros H.
  destruct (length s =? 8)%nat eqn:Hs; [|discriminate].
  destruct (length p <? 95)%nat eqn:Hp; [|discriminate].
  injection H as <-. simpl.
  apply Nat.eqb_eq in Hs. apply Nat.ltb_lt in Hp. done.
Qed.

Lemma init_Ok mj mn (s p sz : str) n m c (v pid : Z * Z) :
  length s = 8%nat → (length p < 95)%nat →
  __init__ mj mn s p sz n m c v pid =
    Ok {| size := sz; size_bytes := n; majorVersion := mj;
          minorVersion := mn; serial := s; product := p;
          MODE := m; CFG := c; VID := v; PID := pid |}.
Proof.
  unfold __init__. intros Hs Hp.
  apply Nat.eqb_eq in Hs. apply Nat.ltb_lt in Hp. by rewrite Hs, Hp.
Qed.

(** C5.  Construction raises [ValueError] for every serial whose length
    is not 8 and for every product of length 95 or more, and for a serial
    of length 8 with a product shorter than 95 it succeeds and stores
    every argument unchanged. *)
Theorem init_length_invariant mj mn (s p sz : str) n m c (v pid : Z * Z) :
  (length s ≠ 8%nat →
   ∃ msg, __init__ mj mn s p sz n m c v pid = Raise (ValueError msg)) ∧
  ((95 ≤ length p)%nat →
   ∃ msg, __init__ mj mn s p sz n m c v pid = Raise (ValueError msg)) ∧
  (length s = 8%nat → (length p < 95)%nat →
   __init__ mj mn s p sz n m c v pid =
     Ok {| size := sz; size_bytes := n; majorVersion := mj;
           minorVersion := mn; serial := s; product := p;
           MODE := m; CFG := c; VID := v; PID := pid |}).
Proof.
  unfold __init__. repeat split.
  - intros Hs. apply Nat.eqb_neq in Hs. rewrite Hs. by eexists.
  - intros Hp. apply Nat.ltb_ge in Hp. rewrite Hp.
    destruct (length s =? 8)%nat; by eexists.
  - apply init_Ok.
Qed.

Lemma init_length_invariant_witness :
  (∃ msg, __init__ 1 2 (lit "1337420") (lit "MESHTOAD") (lit "24c02") 256
            0x12 0xCC (0x1A, 0x86) (0x55, 0x12) = Raise (ValueError msg)) ∧
  (∃ msg, __init__ 1 2 (lit "13374204") (replicate 95 77%N) (lit "24c02") 256
            0x12 0xCC (0x1A, 0x86) (0x55, 0x12) = Raise (ValueError msg)) ∧
  __init__ 1 2 (lit "13374204") (lit "MESHTOAD") (lit "24c02") 256
    0x12 0xCC (0x1A, 0x86) (0x55, 0x12) = Ok toad.
Proof.
  split; [|split].
  - apply (proj1 (init_length_invariant 1 2 (lit "1337420") (lit "MESHTOAD")
                    (lit "24c02") 256 0x12 0xCC (0x1A, 0x86) (0x55, 0x12))).
    vm_compute. lia.
  - apply (proj1 (proj2 (init_length_invariant 1 2 (lit "13374204")
                    (replicate 95 77%N)
                    (lit "24c02") 256 0x12 0xCC (0x1A, 0x86) (0x55, 0x12)))).
    vm_compute. lia.
  - apply (proj2 (proj2 (init_length_invariant 1 2 (lit "13374204")
                    (lit "MESHTOAD")
                    (lit "24c02") 256 0x12 0xCC (0x1A, 0x86) (0x55, 0x12))));
      vm_compute; lia.
Defined.

(** C9.  Construction looks at the length of the serial only: every
    serial of eight characters is accepted, whatever the characters, and
    stored as it is. *)
Theorem init_accepts_any_8_characters (s : str) :
  length s = 8%nat →
  ∀ mj mn p sz n m c v pid, (length p < 95)%nat →
  ∃ self, __init__ mj mn s p sz n m c v pid = Ok self ∧ serial self = s.
Proof.
  intros Hs mj mn p sz n m c v pid Hp. eexists. split.
  - by apply init_Ok.
  - reflexivity.
Qed.

Lemma init_accepts_any_8_characters_witness :
  ¬ Forall is_digit (lit "SN-0x7f!") ∧
  ∃ self, eepCH341_default 1 2 (lit "SN-0x7f!") (lit "MESHTOAD") = Ok self ∧
          serial self = lit "SN-0x7f!".
Proof.
  split.
  - intros H. apply Forall_cons in H as [H _]. vm_compute in H.
    destruct H as [_ H]. apply H. reflexivity.
  - apply init_accepts_any_8_characters; vm_compute; lia.
Defined.

(** * Non-ASCII strings *)

(** Whatever comes before, [bytes] cannot return once an encoding has
    failed. *)
Lemma bytes_not_ascii_raises self :
  ¬ (is_ascii (serial self) ∧ is_ascii (product self)) →
  ∃ e, bytes self = Raise e.
Proof.
  intros Hn. destruct (bytes self) as [rom|e] eqn:E; [|by eexists].
  destruct (bytes_Ok_inv _ _ E) as (_ & _ & _ & Hs & Hp & _).
  destruct Hn. done.
Qed.

(** When the header can be written, the exception is the one of
    [encode]. *)
Lemma bytes_not_ascii_encode_error self :
  buildable_size (size_bytes self) → header_fields_are_bytes self →
  ¬ (is_ascii (serial self) ∧ is_ascii (product self)) →
  ∃ p, bytes self = Raise (UnicodeEncodeError p).
Proof.
  intros Hsz (Hm & Hc & Hv1 & Hv2 & Hp1 & Hp2 & Hmin & Hmaj) Hn.
  apply buildable_size_bounds in Hsz as [Hsz Hmax].
  unfold bytes. rewrite bytearray_Ok by lia.
  replace (Z.to_nat (size_bytes self - 1))
    with (10 + Z.to_nat (size_bytes self - 11))%nat by lia.
  cbn [mbind result_bind].
  repeat (rewrite setitem_Ok;
          [ cbn [mbind result_bind]
          | done || (unfold is_byte; lia)
          | rewrite ?length_insert, length_replicate; lia ]).
  unfold encode_ascii.
  destruct (decide (is_ascii (serial self))) as [Hs|Hs].
  - rewrite (encode_from_ascii _ _ Hs). cbn [mbind result_bind].
    destruct (encode_from_not_ascii 0 (product self)) as [p Hp]; [tauto|].
    exists p. by rewrite Hp.
  - destruct (encode_from_not_ascii 0 (serial self) Hs) as [p Hp].
    exists p. by rewrite Hp.
Qed.

Lemma serial_e_acute_not_ascii : ¬ is_ascii serial_e_acute.
Proof.
  unfold is_ascii. rewrite Forall_forall. intros H.
  assert (233 < 128)%N as H' by (apply H; do 7 right; left).
  vm_compute in H'. discriminate H'.
Qed.

(** C10, amended.  A serial of eight characters and a product shorter
    than 95, one of which has a character that is not ASCII, pass
    construction; [bytes] then never returns a buffer but raises, and the
    exception is the encoding error when the header can be written, that
    is when the header fields are bytes and [size_bytes] is a size for
    which [bytes] returns at all.  So [bytes] returns only for descriptors
    whose strings are both ASCII. *)
Theorem bytes_total_only_for_ascii mj mn (s p sz : str) n m c (v pid : Z * Z) :
  length s = 8%nat → (length p < 95)%nat →
  ∃ self,
    __init__ mj mn s p sz n m c v pid = Ok self ∧
    (∀ rom, bytes self = Ok rom → is_ascii s ∧ is_ascii p) ∧
    (¬ (is_ascii s ∧ is_ascii p) →
     (∃ e, bytes self = Raise e) ∧
     (buildable_size n →
      is_byte m ∧ is_byte c ∧ is_byte v.1 ∧ is_byte v.2 ∧
      is_byte pid.1 ∧ is_byte pid.2 ∧ is_byte mn ∧ is_byte mj →
      ∃ pos, bytes self = Raise (UnicodeEncodeError pos))).
Proof.
  intros Hs Hp. eexists. split; [by apply init_Ok|].
  split.
  - intros rom H. destruct (bytes_Ok_inv _ _ H) as (_ & _ & _ & ? & ? & _).
    done.
  - intros Hn. split.
    + by apply bytes_not_ascii_raises.
    + intros Hsz Hb. by apply bytes_not_ascii_encode_error.
Qed.

Lemma bytes_total_only_for_ascii_witness :
  ¬ is_ascii serial_e_acute ∧
  ∃ self,
    eepCH341_default 1 2 serial_e_acute (lit "MESHTOAD") = Ok self ∧
    bytes self = Raise (UnicodeEncodeError 7).
Proof.
  pose proof serial_e_acute_not_ascii as Hn.
  split; [exact Hn|].
  destruct (bytes_total_only_for_ascii 1 2 serial_e_acute (lit "MESHTOAD")
              (lit "24c02") 256 0x12 0xCC (0x1A, 0x86) (0x55, 0x12))
    as (self & Hinit & _ & Hraise); [vm_compute; lia..|].
  exists self. split; [exact Hinit|].
  destruct Hraise as [_ Henc]; [tauto|].
  destruct Henc as [pos Hpos];
    [ exists toad, toad_image; split; [reflexivity | vm_compute; reflexivity]
    | unfold is_byte; vm_compute; intuition discriminate |].
  rewrite Hpos. vm_compute in Hinit. injection Hinit as <-.
  vm_compute in Hpos. symmetry. exact Hpos.
Defined.

(** C10 as stated fails when the header cannot be written: with a serial
    that is not ASCII and [size_bytes = 1] the array is empty, and the
    first item assignment raises [IndexError] before anything is
    encoded. *)
Lemma bytes_non_ascii_index_error :
  ¬ is_ascii serial_e_acute ∧
  ∃ self,
    __init__ 1 2 serial_e_acute (lit "MESHTOAD") (lit "24c02") 1
      0x12 0xCC (0x1A, 0x86) (0x55, 0x12) = Ok self ∧
    bytes self = Raise (IndexError (lit "bytearray index out of range")) ∧
    ¬ ∃ pos, bytes self = Raise (UnicodeEncodeError pos).
Proof.
  split; [exact serial_e_acute_not_ascii|].
  eexists. split; [reflexivity|]. split; [reflexivity|].
  intros [pos H]. vm_compute in H. discriminate H.
Qed.

(** * Properties of the device operations and of the batch loop *)

Section ScriptProperties.

Context {Dev : Type}.
Variable exec :
  list str → Dev → gmap str (list Z) → Z * Dev * gmap str (list Z).

Implicit Types s : state (Dev:=Dev).

Local Abbreviation Stmt := (M (Dev:=Dev)).

(** ** Rules for [tracked] *)

Lemma runs_app es1 es2 : runs (es1 ++ es2) = runs es1 ++ runs es2.
Proof. apply omap_app. Qed.

Lemma fst_zero_codes (c : list (list str)) :
  ((λ argv, (argv, 0)) <$> c).*1 = c.
Proof. induction c as [|argv c IH]; simpl; [done | by f_equal]. Qed.

Lemma tracked_bind {A B} (m : Stmt A) (f : A → Stmt B) d c1 c2 :
  tracked m 0 c1 → (∀ a, tracked (f a) d c2) →
  tracked (m ≫= f) d (c1 ++ c2).
Proof.
  intros Hm Hf s r s' H. unfold mbind, M_bind in H.
  destruct (m s) as [[a|e] s1] eqn:E.
  - destruct (Hm _ _ _ E) as (new1 & Hev1 & Hc1 & Hr1).
    destruct (Hf a _ _ _ H) as (new2 & Hev2 & Hpost).
    exists (new1 ++ new2). split; [by rewrite Hev2, Hev1, app_assoc|].
    rewrite runs_app, Hr1. destruct r as [b|e].
    + destruct Hpost as [Hc2 Hr2]. split; [lia|]. by rewrite Hr2, fmap_app.
    + destruct Hpost as (Hc2 & Hpre & Hcode). split; [lia|]. split.
      * rewrite fmap_app, fst_zero_codes. by apply prefix_app.
      * intros argv code Hin Hne. apply elem_of_app in Hin as [Hin|Hin].
        -- apply list_elem_of_fmap in Hin as (? & [= _ ->] & _). done.
        -- by apply Hcode.
  - injection H as <- <-.
    destruct (Hm _ _ _ E) as (new1 & Hev1 & Hc1 & Hpre & Hcode).
    exists new1. split; [done|]. split; [done|]. split; [|done].
    by apply prefix_app_r.
Qed.

Lemma tracked_bind_quiet {A B} (m : Stmt A) (f : A → Stmt B) d c :
  tracked m 0 [] → (∀ a, tracked (f a) d c) → tracked (m ≫= f) d c.
Proof. apply (tracked_bind m f d [] c). Qed.

Lemma tracked_bind_run {A B} (m : Stmt A) (f : A → Stmt B) d argv c :
  tracked m 0 [argv] → (∀ a, tracked (f a) d c) →
  tracked (m ≫= f) d (argv :: c).
Proof. apply (tracked_bind m f d [argv] c). Qed.

(** A statement that leaves the counter alone and adds events that are
    not invocations. *)
Lemma tracked_quiet {A} (m : Stmt A) :
  (∀ s r s', m s = (r, s') →
     cur_serial s' = cur_serial s ∧
     ∃ new, events s' = events s ++ new ∧ runs new = []) →
  tracked m 0 [].
Proof.
  intros Hm s r s' H. destruct (Hm _ _ _ H) as (Hc & new & Hev & Hr).
  exists new. split; [done|]. rewrite Hr. destruct r.
  - split; [lia | done].
  - split; [done|]. split; [done|]. intros ?? Hin. by apply elem_of_nil in Hin.
Qed.

Lemma tracked_ret {A} (a : A) : tracked (mret a : Stmt A) 0 [].
Proof.
  apply tracked_quiet. intros s r s' [= <- <-]. split; [done|].
  exists []. by rewrite app_nil_r.
Qed.

Lemma tracked_raise {A} e : tracked (raise e : Stmt A) 0 [].
Proof.
  apply tracked_quiet. intros s r s' [= <- <-]. split; [done|].
  exists []. by rewrite app_nil_r.
Qed.

Lemma tracked_lift {A} (x : result A) : tracked (lift x : Stmt A) 0 [].
Proof.
  apply tracked_quiet. intros s r s' [= <- <-]. split; [done|].
  exists []. by rewrite app_nil_r.
Qed.

Lemma tracked_get_cur_serial : tracked (get_cur_serial (Dev:=Dev)) 0 [].
Proof.
  apply tracked_quiet. intros s r s' [= <- <-]. split; [done|].
  exists []. by rewrite app_nil_r.
Qed.

Lemma tracked_os_path_exists path : tracked (os_path_exists (Dev:=Dev) path) 0 [].
Proof.
  apply tracked_quiet. intros s r s' [= <- <-]. split; [done|].
  exists []. by rewrite app_nil_r.
Qed.

Lemma tracked_emit e :
  (∀ argv code, e ≠ Run argv code) → tracked (emit (Dev:=Dev) e) 0 [].
Proof.
  intros He. apply tracked_quiet. intros s r s' [= <- <-]. split; [done|].
  exists [e]. split; [done|]. destruct e; try reflexivity. by destruct (He argv returncode).
Qed.

Lemma tracked_print text : tracked (print (Dev:=Dev) text) 0 [].
Proof. by apply tracked_emit. Qed.

Lemma tracked_os_remove path : tracked (os_remove (Dev:=Dev) path) 0 [].
Proof.
  apply tracked_quiet. intros s r s' H. unfold os_remove in H.
  destruct (files s !! path); injection H as <- <-.
  - split; [done|]. by exists [Remove path].
  - split; [done|]. exists []. by rewrite app_nil_r.
Qed.

Lemma tracked_open_wb path : tracked (open_wb (Dev:=Dev) path) 0 [].
Proof.
  apply tracked_quiet. intros s r s' [= <- <-]. split; [done|].
  by exists [Create path].
Qed.

Lemma tracked_f_write path data : tracked (f_write (Dev:=Dev) path data) 0 [].
Proof.
  apply tracked_quiet. intros s r s' [= <- <-]. split; [done|].
  by exists [Write path data].
Qed.

Lemma tracked_open_rb_read path : tracked (open_rb_read (Dev:=Dev) path) 0 [].
Proof.
  apply tracked_quiet. intros s r s' H. unfold open_rb_read in H.
  destruct (files s !! path); injection H as <- <-.
  - split; [done|]. by exists [ReadFile path].
  - split; [done|]. exists []. by rewrite app_nil_r.
Qed.

Lemma tracked_input prompt : tracked (input (Dev:=Dev) prompt) 0 [].
Proof.
  apply tracked_quiet. intros s r s' H. unfold input in H.
  destruct (stdin s); injection H as <- <-; (split; [done|]);
    by exists [Prompt prompt].
Qed.

(** The one statement that invokes the programmer. *)
Lemma tracked_subprocess_run argv : tracked (subprocess_run exec argv) 0 [argv].
Proof.
  intros s r s' H. unfold subprocess_run in H.
  destruct (exec argv (device s) (files s)) as [[code dev] fs].
  exists [Run argv code]. destruct (code =? 0) eqn:Hcode; injection H as <- <-.
  - apply Z.eqb_eq in Hcode as ->. split; [done|]. split; [simpl; lia | done].
  - split; [done|]. split; [done|]. split; [done|].
    intros argv' code' Hin _. apply list_elem_of_singleton in Hin. by injection Hin as -> ->.
Qed.

(** The counter moves in the last statement of the body only. *)
Lemma tracked_increment :
  tracked (get_cur_serial (Dev:=Dev) ≫= λ cur, set_cur_serial (cur + 1)) 1 [].
Proof.
  intros s r s' [= <- <-]. exists []. split; [by rewrite app_nil_r | done].
Qed.

Lemma tracked_lift_bind {A B} (x : result A) (f : A → Stmt B) d c :
  (∀ v, x = Ok v → tracked (f v) d c) → tracked (lift x ≫= f) d c.
Proof.
  intros Hf. destruct x as [v|e].
  - intros s r s' H. by apply (Hf v eq_refl).
  - intros s r s' [= <- <-]. exists []. split; [by rewrite app_nil_r|].
    split; [done|]. split; [apply prefix_nil|].
    intros ?? Hin. by apply elem_of_nil in Hin.
Qed.

(** ** The four operations *)

Lemma tracked_erase self bin :
  tracked (erase exec self bin) 0 [erase_argv (size self) bin].
Proof.
  unfold erase.
  apply tracked_bind_run; [apply tracked_subprocess_run | intros r]. apply tracked_ret.
Qed.

Ltac tracked_quiet_step :=
  apply tracked_bind_quiet;
  [ first [ apply tracked_os_path_exists | apply tracked_os_remove
          | apply tracked_open_wb | apply tracked_f_write
          | apply tracked_open_rb_read | apply tracked_lift
          | apply tracked_input | apply tracked_get_cur_serial
          | apply tracked_print | apply tracked_ret | apply tracked_raise
          | by apply tracked_emit
          | case_match; [apply tracked_os_remove | apply tracked_ret]
          | case_match; [apply tracked_raise | apply tracked_ret] ]
  | intros ? ].

Lemma tracked_read self bin :
  tracked (read exec self bin) 0 [read_argv (size self) bin].
Proof.
  unfold read. do 2 tracked_quiet_step.
  apply tracked_bind_run; [apply tracked_subprocess_run | intros r]. do 2 tracked_quiet_step. apply tracked_ret.
Qed.

Lemma tracked_flash self bin :
  tracked (flash exec self bin) 0 [write_argv (size self) bin].
Proof.
  unfold flash. do 5 tracked_quiet_step.
  apply tracked_bind_run; [apply tracked_subprocess_run | intros r]. tracked_quiet_step. apply tracked_ret.
Qed.

Lemma tracked_verify self bin :
  tracked (verify exec self bin) 0 [verify_argv (size self) bin].
Proof.
  unfold verify. do 5 tracked_quiet_step.
  apply tracked_bind_run; [apply tracked_subprocess_run | intros r]. tracked_quiet_step. apply tracked_ret.
Qed.

(** ** One iteration *)

Lemma default_size_label mj mn (ser prod : str) self :
  eepCH341_default mj mn ser prod = Ok self →
  size self = lit "24c02" ∧ size_bytes self = 256.
Proof.
  unfold eepCH341_default, __init__. intros H.
  repeat case_match; try discriminate. by injection H as <-.
Qed.

Lemma tracked_iteration a :
  tracked (iteration exec a) 1 (iteration_calls (args_bin a)).
Proof.
  unfold iteration, iteration_calls. do 3 tracked_quiet_step.
  apply tracked_lift_bind. intros eeprom Hee.
  apply default_size_label in Hee as [<- _].
  apply tracked_bind_run; [apply tracked_read | intros read_init].
  tracked_quiet_step.
  apply tracked_bind_run; [apply tracked_erase | intros ?].
  apply tracked_bind_run; [apply tracked_flash | intros ?].
  apply tracked_bind_run; [apply tracked_verify | intros ?].
  do 2 tracked_quiet_step.
  apply tracked_bind_run; [apply tracked_read | intros read_again].
  do 3 tracked_quiet_step.
  apply tracked_increment.
Qed.

Lemma batch_loop_abort a s e s' :
  iteration exec a s = (Raise e, s') →
  ∀ fuel, batch_loop exec a (S fuel) s = (Some e, s').
Proof. intros H fuel. simpl. by rewrite H. Qed.

(** The counter counts the iterations that completed. *)
Lemma batch_loop_counter a fuel : ∀ s o s',
  batch_loop exec a fuel s = (o, s') →
  ∃ n : nat, (n ≤ fuel)%nat ∧ cur_serial s' = cur_serial s + Z.of_nat n ∧
             (o = None → n = fuel).
Proof.
  induction fuel as [|fuel IH]; intros s o s' H; simpl in H.
  - injection H as <- <-. exists 0%nat. split; [lia|]. split; [lia | done].
  - destruct (iteration exec a s) as [[[]|e] s1] eqn:E.
    + destruct (tracked_iteration a _ _ _ E) as (_ & _ & Hc & _).
      destruct (IH _ _ _ H) as (n & Hn & Hc' & Ho).
      exists (S n). split; [lia|]. split; [lia|]. intros ->. by rewrite Ho.
    + injection H as <- <-.
      destruct (tracked_iteration a _ _ _ E) as (_ & _ & Hc & _).
      exists 0%nat. split; [lia|]. split; [lia | done].
Qed.

(** ** The read before flashing *)

(** C6.  In an iteration where the operator has confirmed and the
    descriptor was built, if the first read returns a number of bytes
    other than [size_bytes], the iteration raises [ValueError] and the loop
    stops there: the only invocation of the programmer is that read, so
    nothing was erased or flashed, and the counter has not moved. *)
Theorem iteration_read_size_mismatch a s line s0 eeprom data s1 :
  input (lit "Attach serial number: " ++ str_of_int (cur_serial s)) s
    = (Ok line, s0) →
  eepCH341_default (args_majorVersion a) (args_minorVersion a)
    (str_of_int (cur_serial s)) (args_product a) = Ok eeprom →
  read exec eeprom (args_bin a) s0 = (Ok data, s1) →
  Z.of_nat (length data) ≠ size_bytes eeprom →
  ∃ msg new,
    iteration exec a s = (Raise (ValueError msg), s1) ∧
    (∀ fuel, batch_loop exec a (S fuel) s = (Some (ValueError msg), s1)) ∧
    cur_serial s1 = cur_serial s ∧
    events s1 = events s ++ new ∧
    runs new = [(read_argv (lit "24c02") (args_bin a), 0)].
Proof.
  intros Hin Hee Hread Hlen.
  destruct (tracked_input _ _ _ _ Hin) as (new0 & Hev0 & Hc0 & Hr0).
  destruct (tracked_read _ _ _ _ _ Hread) as (new1 & Hev1 & Hc1 & Hr1).
  rewrite Z.add_0_r in Hc0, Hc1.
  assert (∃ msg, iteration exec a s = (Raise (ValueError msg), s1)) as [msg Hit].
  { eexists. unfold iteration, mbind, M_bind, get_cur_serial, lift, raise.
    rewrite Hin, Hc0, Hee, Hread.
    rewrite bool_decide_eq_true_2 by done. reflexivity. }
  exists msg, (new0 ++ new1). split; [exact Hit|].
  split; [by apply batch_loop_abort|]. split; [lia|].
  split; [by rewrite Hev1, Hev0, app_assoc|].
  rewrite runs_app, Hr0, Hr1.
  by destruct (default_size_label _ _ _ _ _ Hee) as [-> _].
Qed.

(** ** The serial counter *)

(** C7.  An iteration that returns has made the five invocations (read,
    erase, write, verify, read), each with status 0, and has moved the
    counter by one.  An iteration that raises leaves the counter where it
    was and ends the loop with that exception.  An invocation that left a
    status other than 0 makes the iteration raise [CalledProcessError]
    for it. *)
Theorem iteration_counter a s r s' :
  iteration exec a s = (r, s') →
  ∃ new, events s' = events s ++ new ∧
    match r with
    | Ok _ =>
        cur_serial s' = cur_serial s + 1 ∧
        runs new = (λ argv, (argv, 0)) <$> iteration_calls (args_bin a)
    | Raise e =>
        cur_serial s' = cur_serial s ∧
        ∀ fuel, batch_loop exec a (S fuel) s = (Some e, s')
    end ∧
    ∀ argv code, (argv, code) ∈ runs new → code ≠ 0 →
      r = Raise (CalledProcessError code argv) ∧
      cur_serial s' = cur_serial s ∧
      ∀ fuel, batch_loop exec a (S fuel) s
              = (Some (CalledProcessError code argv), s').
Proof.
  intros H. destruct (tracked_iteration a _ _ _ H) as (new & Hev & Hpost).
  exists new. split; [exact Hev|]. destruct r as [[]|e].
  - destruct Hpost as [Hc Hr]. split; [done|].
    intros argv code Hin Hne. rewrite Hr in Hin.
    apply list_elem_of_fmap in Hin as (? & [= _ ->] & _). done.
  - destruct Hpost as (Hc & _ & Hcode). split.
    + split; [done|]. by apply batch_loop_abort.
    + intros argv code Hin Hne. rewrite (Hcode _ _ Hin Hne) in H |- *.
      split; [done|]. split; [done|]. by apply batch_loop_abort.
Qed.

(** ** The temporary files *)

Lemma tracked_events {A} (m : Stmt A) d c s r s' :
  tracked m d c → m s = (r, s') → ∃ new, events s' = events s ++ new.
Proof. intros Hm H. destruct (Hm _ _ _ H) as (new & Hev & _). by exists new. Qed.

Lemma remove_then {A} (m : Stmt A) path d c :
  tracked m d c →
  ∀ s r s', (os_remove path ≫= λ _, m) s = (r, s') →
  is_Some (files s !! path) →
  ∃ rest, events s' = events s ++ Remove path :: rest.
Proof.
  intros Hm s r s' H [old Hold]. unfold mbind, M_bind, os_remove in H.
  rewrite Hold in H.
  destruct (tracked_events _ _ _ _ _ _ Hm H) as [new Hev].
  exists new. rewrite Hev. simpl. by rewrite <- app_assoc.
Qed.

Lemma os_remove_Ok path s u s' :
  os_remove path s = (Ok u, s') → files s' !! path = None.
Proof.
  unfold os_remove. destruct (files s !! path); [|discriminate].
  intros [= _ <-]. simpl. apply lookup_delete_eq.
Qed.

Ltac bind_step H :=
  unfold mbind at 1, M_bind at 1 in H;
  match type of H with
  | match ?m ?s with _ => _ end = _ =>
      let E := fresh "E" in
      destruct (m s) as [[?|?] ?] eqn:E; [|by simplify_eq]
  end.

Ltac removed :=
  match goal with
  | E : os_remove ?path _ = (Ok _, ?s') |- files ?s' !! ?path = None =>
      exact (os_remove_Ok _ _ _ _ E)
  end.

(** C8.  Each of read, flash and verify first deletes a file left under
    the name of its temporary file, and when it returns that file does not
    exist. *)
Theorem temp_files_removed self bin :
  temp_file_discipline (read exec self bin) read_eeprom_bin ∧
  temp_file_discipline (flash exec self bin) write_eeprom_bin ∧
  temp_file_discipline (verify exec self bin) verify_eeprom_bin.
Proof.
  split; [|split]; intros s r s' H; split.
  - intros Hex. unfold read in H.
    unfold mbind at 1, M_bind at 1, os_path_exists in H.
    rewrite bool_decide_eq_true_2 in H by done.
    eapply (remove_then _ _ 0 [read_argv (size self) bin]); [| exact H | done].
    apply tracked_bind_run; [apply tracked_subprocess_run | intros ?].
    do 2 tracked_quiet_step. apply tracked_ret.
  - intros data ->. unfold read in H. do 5 bind_step H.
    injection H as _ <-. removed.
  - intros Hex. unfold flash in H.
    unfold mbind at 1, M_bind at 1, os_path_exists in H.
    rewrite bool_decide_eq_true_2 in H by done.
    eapply (remove_then _ _ 0 [write_argv (size self) bin]); [| exact H | done].
    do 3 tracked_quiet_step.
    apply tracked_bind_run; [apply tracked_subprocess_run | intros ?].
    tracked_quiet_step. apply tracked_ret.
  - intros code ->. unfold flash in H. do 7 bind_step H.
    injection H as _ <-. removed.
  - intros Hex. unfold verify in H.
    unfold mbind at 1, M_bind at 1, os_path_exists in H.
    rewrite bool_decide_eq_true_2 in H by done.
    eapply (remove_then _ _ 0 [verify_argv (size self) bin]); [| exact H | done].
    do 3 tracked_quiet_step.
    apply tracked_bind_run; [apply tracked_subprocess_run | intros ?].
    tracked_quiet_step. apply tracked_ret.
  - intros code ->. unfold verify in H. do 7 bind_step H.
    injection H as _ <-. removed.
Qed.

End ScriptProperties.

(** ** The properties on the simulated programmer *)

(** A part of 128 bytes is attached: the first read returns 128 bytes and
    the loop stops before erasing. *)
Lemma iteration_read_size_mismatch_witness :
  ∃ msg s1,
    batch_loop (programmer None) default_args 3 (bench 128 ∅)
      = (Some (ValueError msg), s1) ∧
    cur_serial s1 = 13374204 ∧
    runs (events s1) = [(read_argv (lit "24c02") (args_bin default_args), 0)].
Proof.
  edestruct (iteration_read_size_mismatch (programmer None) default_args
               (bench 128 ∅))
    as (msg & new & Hit & Hloop & Hc & Hev & Hr);
    [ vm_compute; reflexivity | vm_compute; reflexivity
    | vm_compute; reflexivity | vm_compute; discriminate | ].
  eexists msg, _. split; [apply Hloop|]. split; [exact Hc|].
  rewrite Hev. exact Hr.
Defined.

(** The programmer refuses to erase: the loop stops with its status and
    the counter is the one of the unit on the bench. *)
Lemma iteration_counter_witness :
  ∃ s',
    batch_loop (programmer (Some (lit "--erase"))) default_args 3 (bench 256 ∅)
      = (Some (CalledProcessError 1
                 (erase_argv (lit "24c02") (args_bin default_args))), s') ∧
    cur_serial s' = 13374204.
Proof.
  edestruct (iteration_counter (programmer (Some (lit "--erase"))) default_args
               (bench 256 ∅))
    as (new & Hev & _ & Hcode); [vm_compute; reflexivity|].
  simpl in Hev. subst new.
  destruct (Hcode (erase_argv (lit "24c02") (args_bin default_args)) 1)
    as (_ & Hc & Hloop); [vm_compute; right; left | lia |].
  eexists. split; [apply Hloop | exact Hc].
Defined.

(** A stale [read_eeprom.bin] is around: [read] deletes it first and
    leaves no file behind. *)
Lemma temp_files_removed_witness :
  ∃ data s',
    read (programmer None) toad (lit "ch341eeprom")
      (bench 256 {[ read_eeprom_bin := [1; 2; 3] ]}) = (Ok data, s') ∧
    length data = 256%nat ∧
    files s' !! read_eeprom_bin = None ∧
    ∃ rest, events s' = Remove read_eeprom_bin :: rest.
Proof.
  destruct (temp_files_removed (programmer None) toad (lit "ch341eeprom"))
    as (Hread & _ & _).
  edestruct (Hread (bench 256 {[ read_eeprom_bin := [1; 2; 3] ]}))
    as [Hfirst Hgone]; [vm_compute; reflexivity|].
  eexists _, _. split; [vm_compute; reflexivity|]. split; [reflexivity|].
  split; [by eapply Hgone|].
  apply Hfirst. eexists. vm_compute. reflexivity.
Defined.

(** * Further properties of the image builder *)

(** ** When [bytes] returns and what it raises *)

Lemma setitem_value_error rom i v :
  ¬ is_byte v →
  setitem rom i v = Raise (ValueError (lit "byte must be in range(0, 256)")).
Proof.
  unfold setitem, is_byte. intros Hv.
  destruct (v <? 0) eqn:H0; [done|].
  destruct (256 <=? v) eqn:H1; [done|].
  apply Z.ltb_ge in H0. apply Z.leb_gt in H1. lia.
Qed.

(** [bytes] returns a buffer exactly when the eight variable header
    fields are byte values, both strings are ASCII, and [size_bytes] is a
    size for which [bytes] returns at all; such a size is at least 11 and
    less than 2^63. *)
Theorem bytes_returns_iff self :
  ((∃ rom, bytes self = Ok rom) ↔
   buildable_size (size_bytes self) ∧ header_fields_are_bytes self ∧
   is_ascii (serial self) ∧ is_ascii (product self)) ∧
  (buildable_size (size_bytes self) →
   11 ≤ size_bytes self < 9223372036854775808).
Proof.
  split; [split|].
  - intros [rom H]. destruct (bytes_Ok_inv _ _ H) as (k & Hk & Hb & Hs & Hp & _).
    split; [by exists self, rom | done].
  - intros (Hsz & Hb & Hs & Hp). by apply bytes_returns.
  - intros Hsz. apply buildable_size_bounds in Hsz.
    unfold PY_SSIZE_T_MAX in Hsz. lia.
Qed.

Lemma bytes_returns_iff_witness :
  (∃ rom, bytes (with_majorVersion toad 7) = Ok rom) ∧
  11 ≤ size_bytes (with_majorVersion toad 7) < 9223372036854775808.
Proof.
  assert (buildable_size (size_bytes (with_majorVersion toad 7))) as Hsz
    by (exists toad, toad_image; split; [reflexivity | vm_compute; reflexivity]).
  destruct (bytes_returns_iff (with_majorVersion toad 7)) as [Hiff Hbound].
  split; [|exact (Hbound Hsz)].
  apply Hiff. split; [exact Hsz|].
  split; [unfold header_fields_are_bytes, is_byte; vm_compute; intuition discriminate|].
  split; unfold is_ascii; vm_compute; repeat constructor.
Defined.

(** The sizes that leave no room for the header.  A count
    [size_bytes - 1] that does not fit a [Py_ssize_t] makes the allocation
    raise [OverflowError]; a negative count that fits makes it raise
    [ValueError]; a size from 1 to 10 leaves the array too short for the
    header, and an item assignment raises [IndexError]. *)
Theorem bytes_small_size_errors self :
  (size_bytes self - 1 < -9223372036854775808 ∨
   9223372036854775807 < size_bytes self - 1 →
   bytes self = Raise (OverflowError
                         (lit "cannot fit 'int' into an index-sized integer"))) ∧
  (-9223372036854775808 ≤ size_bytes self - 1 < 0 →
   bytes self = Raise (ValueError (lit "negative count"))) ∧
  (1 ≤ size_bytes self ≤ 10 → header_fields_are_bytes self →
   bytes self = Raise (IndexError (lit "bytearray index out of range"))).
Proof.
  split; [|split].
  - intros Hsz. unfold bytes.
    rewrite bytearray_OverflowError by (unfold PY_SSIZE_T_MAX; lia).
    reflexivity.
  - intros Hsz. unfold bytes.
    rewrite bytearray_ValueError by (unfold PY_SSIZE_T_MAX; lia).
    reflexivity.
  - intros Hsz (Hm & Hc & Hv1 & Hv2 & Hp1 & Hp2 & Hmin & Hmaj).
    unfold bytes. rewrite bytearray_Ok by (unfold PY_SSIZE_T_MAX; lia).
    assert (Z.to_nat (size_bytes self - 1) < 10)%nat as Hn by lia.
    revert Hn. generalize (Z.to_nat (size_bytes self - 1)). intros n Hn.
    cbn [mbind result_bind].
    do 10 (destruct n as [|n]; [
      repeat (rewrite setitem_Ok;
              [ cbn [mbind result_bind]
              | done || (unfold is_byte; lia)
              | rewrite ?length_insert; simpl; lia ]);
      rewrite setitem_index_error;
        [ reflexivity
        | done || (unfold is_byte; lia)
        | rewrite ?length_insert; simpl; lia ] |]).
    lia.
Qed.

Lemma bytes_small_size_errors_witness :
  bytes (toad_sized (lit "24c02") 9223372036854775809)
    = Raise (OverflowError
               (lit "cannot fit 'int' into an index-sized integer")) ∧
  bytes (toad_sized (lit "24c02") 0) = Raise (ValueError (lit "negative count")) ∧
  bytes (toad_sized (lit "24c02") 10)
    = Raise (IndexError (lit "bytearray index out of range")).
Proof.
  split; [|split].
  - apply (proj1 (bytes_small_size_errors
                    (toad_sized (lit "24c02") 9223372036854775809))).
    right. cbn [size_bytes toad_sized]. lia.
  - apply (proj1 (proj2 (bytes_small_size_errors (toad_sized (lit "24c02") 0)))).
    cbn [size_bytes toad_sized]. lia.
  - apply (proj2 (proj2 (bytes_small_size_errors (toad_sized (lit "24c02") 10)))).
    + cbn [size_bytes toad_sized]. lia.
    + unfold header_fields_are_bytes, is_byte. vm_compute. intuition discriminate.
Defined.

(** With a size for which [bytes] returns at all, a header field that is
    not a byte value (a version of 300 from the command line, say) makes
    [bytes] raise [ValueError]: the constructor has not looked at it. *)
Theorem bytes_field_out_of_range self :
  buildable_size (size_bytes self) → ¬ header_fields_are_bytes self →
  bytes self = Raise (ValueError (lit "byte must be in range(0, 256)")).
Proof.
  intros Hsz Hn. apply buildable_size_bounds in Hsz as [Hsz Hmax].
  unfold bytes. rewrite bytearray_Ok by lia.
  replace (Z.to_nat (size_bytes self - 1))
    with (10 + Z.to_nat (size_bytes self - 11))%nat by lia.
  cbn [mbind result_bind].
  rewrite setitem_Ok;
    [cbn [mbind result_bind] | unfold is_byte; lia | rewrite length_replicate; lia].
  repeat
    match goal with
    | |- context [setitem ?rom ?i ?v] =>
        let Hb := fresh "Hb" in
        destruct (decide (0 ≤ v < 256)) as [Hb|Hb];
        [ rewrite (setitem_Ok rom i v Hb)
            by (rewrite ?length_insert, length_replicate; lia);
          cbn [mbind result_bind]
        | rewrite (setitem_value_error rom i v Hb); reflexivity ]
    end.
  destruct Hn. unfold header_fields_are_bytes, is_byte. done.
Qed.

Lemma bytes_field_out_of_range_witness :
  (∃ self, eepCH341_default 300 2 (lit "13374204") (lit "MESHTOAD") = Ok self) ∧
  bytes (with_majorVersion toad 300)
    = Raise (ValueError (lit "byte must be in range(0, 256)")).
Proof.
  split; [by eexists|].
  apply bytes_field_out_of_range;
    [exists toad, toad_image; split; [reflexivity | vm_compute; reflexivity]|].
  unfold header_fields_are_bytes, is_byte. simpl.
  intros (_ & _ & _ & _ & _ & _ & _ & H). lia.
Defined.

(** ** The buffer *)

Lemma Forall_setslice (P : Z → Prop) rom lo hi x :
  Forall P rom → Forall P x → Forall P (setslice rom lo hi x).
Proof.
  intros Hr Hx. unfold setslice.
  repeat apply Forall_app_2; [by apply Forall_take | done | by apply Forall_drop].
Qed.

Lemma ascii_bytes_are_bytes s : is_ascii s → Forall is_byte (ascii_bytes s).
Proof.
  unfold is_ascii, ascii_bytes. intros H. apply Forall_fmap.
  eapply Forall_impl; [exact H|]. intros c Hc. unfold is_byte, compose. cbv beta in *. lia.
Qed.

Lemma bytes_elements_are_bytes_aux self rom :
  bytes self = Ok rom → Forall is_byte rom.
Proof.
  intros H.
  destruct (bytes_Ok_inv _ _ H)
    as (k & _ & (Hm & Hc & Hv1 & Hv2 & Hp1 & Hp2 & Hmin & Hmaj) & Hs & Hp & ->).
  repeat apply Forall_setslice; try by apply ascii_bytes_are_bytes.
  apply Forall_app_2.
  - unfold header.
    repeat (apply Forall_cons_2; [done || (unfold is_byte; lia)|]).
    apply Forall_nil_2.
  - apply Forall_replicate. unfold is_byte. lia.
Qed.

(** Every element of a buffer that [bytes] returns is a byte value: the
    header fields have passed the range check of the item assignment, the
    characters are ASCII and the rest is zero. *)
Theorem bytes_elements_are_bytes self rom :
  bytes self = Ok rom → Forall is_byte rom.
Proof. apply bytes_elements_are_bytes_aux. Qed.

Lemma bytes_elements_are_bytes_witness :
  ∃ rom, bytes toad = Ok rom ∧ Forall is_byte rom.
Proof.
  eexists. split; [vm_compute; reflexivity|].
  apply (bytes_elements_are_bytes toad). vm_compute. reflexivity.
Defined.

(** The buffer of a valid descriptor of at least 32 bytes is as long as
    the part, or as the 32 bytes before the product and the product when
    that is more.  From 126 bytes on every product fits and the buffer has
    [size_bytes] bytes: the length that the batch loop demands of a
    read. *)
Theorem image_length self rom :
  valid self → 32 ≤ size_bytes self → bytes self = Ok rom →
  Z.of_nat (length rom)
    = size_bytes self `max` (32 + Z.of_nat (length (product self))) ∧
  (126 ≤ size_bytes self → Z.of_nat (length rom) = size_bytes self).
Proof.
  intros Hv Hsz H. rewrite (bytes_layout _ _ Hv Hsz H).
  destruct Hv as [Hs Hp].
  rewrite !length_app, !length_replicate, !length_ascii_bytes, Hs, length_header.
  lia.
Qed.

Lemma image_length_witness :
  ∃ rom, bytes (toad_sized (lit "24c01") 128) = Ok rom ∧
         Z.of_nat (length rom) = 128.
Proof.
  eexists. split; [vm_compute; reflexivity|].
  apply (image_length (toad_sized (lit "24c01") 128));
    [ split; vm_compute; lia | vm_compute; discriminate
    | vm_compute; reflexivity | vm_compute; discriminate ].
Defined.

Lemma ascii_bytes_inj s1 s2 : ascii_bytes s1 = ascii_bytes s2 → s1 = s2.
Proof.
  unfold ascii_bytes. revert s2.
  induction s1 as [|c s1 IH]; intros [|c2 s2] H; simpl in H; try done.
  injection H as Hc Hs. f_equal; [lia | by apply IH].
Qed.

(** The header fields and the serial can be read back from the image: two
    valid descriptors of at least 32 bytes with the same image have the
    same mode, configuration, identifiers, versions and serial, and the
    same product when their products have the same length. *)
Theorem image_determines_fields d1 d2 rom :
  valid d1 → valid d2 → 32 ≤ size_bytes d1 → 32 ≤ size_bytes d2 →
  bytes d1 = Ok rom → bytes d2 = Ok rom →
  MODE d1 = MODE d2 ∧ CFG d1 = CFG d2 ∧ VID d1 = VID d2 ∧ PID d1 = PID d2 ∧
  minorVersion d1 = minorVersion d2 ∧ majorVersion d1 = majorVersion d2 ∧
  serial d1 = serial d2 ∧
  (length (product d1) = length (product d2) → product d1 = product d2).
Proof.
  intros Hv1 Hv2 Hsz1 Hsz2 H1 H2.
  pose proof (bytes_layout _ _ Hv1 Hsz1 H1) as L1.
  pose proof (bytes_layout _ _ Hv2 Hsz2 H2) as L2.
  rewrite L1 in L2. clear L1.
  apply app_inj_1 in L2 as [Hh L2]; [|by rewrite !length_header].
  apply app_inj_1 in L2 as [_ L2]; [|by rewrite !length_replicate].
  apply app_inj_1 in L2 as [Hs L2];
    [|rewrite !length_ascii_bytes; destruct Hv1, Hv2; congruence].
  apply app_inj_1 in L2 as [_ L2]; [|by rewrite !length_replicate].
  unfold header in Hh. injection Hh as Hm Hc Hv2' Hv1' Hp2 Hp1 Hmin Hmaj.
  repeat split; try done.
  - destruct (VID d1), (VID d2). simpl in *. congruence.
  - destruct (PID d1), (PID d2). simpl in *. congruence.
  - by apply ascii_bytes_inj.
  - intros Hlen. apply ascii_bytes_inj.
    apply app_inj_1 in L2 as [Hp _]; [done|].
    by rewrite !length_ascii_bytes.
Qed.

Lemma image_determines_fields_witness :
  serial (toad_sized (lit "24c02") 256) = serial (toad_sized (lit "24c04") 256).
Proof.
  eapply (image_determines_fields (toad_sized (lit "24c02") 256)
            (toad_sized (lit "24c04") 256));
    [ split; vm_compute; lia | split; vm_compute; lia
    | vm_compute; discriminate | vm_compute; discriminate
    | vm_compute; reflexivity | vm_compute; reflexivity ].
Defined.

(** The image has no length field and no terminator for the product: a
    NUL character appended to the product falls on a byte that is zero
    anyway, and the image is the same. *)
Theorem product_trailing_nul_is_invisible self rom :
  valid self → (length (product self) + 1 < 95)%nat →
  33 + Z.of_nat (length (product self)) ≤ size_bytes self →
  bytes self = Ok rom →
  valid (with_product self (product self ++ [0%N])) ∧
  bytes (with_product self (product self ++ [0%N])) = Ok rom.
Proof.
  intros [Hs Hp] Hp' Hsz H.
  split; [split; simpl; [done | rewrite length_app; simpl; lia]|].
  destruct (bytes_Ok_inv _ _ H) as (k & Hk & Hb & Has & Hap & ->).
  rewrite (bytes_Ok (with_product self (product self ++ [0%N])) k);
    [| done | exact (proj2 (bytes_Ok_size_bound _ _ H)) | done | done
     | apply Forall_app_2; [done | by repeat constructor]].
  f_equal. cbn [with_product serial product].
  rewrite <- (length_ascii_bytes (product self ++ [0%N])).
  rewrite <- (length_ascii_bytes (product self)).
  change (header (with_product self (product self ++ [0%N]))) with (header self).
  rewrite !setslices_layout;
    [| apply length_header | by rewrite length_ascii_bytes | lia
     | apply length_header | by rewrite length_ascii_bytes | lia ].
  do 4 f_equal. unfold ascii_bytes. rewrite fmap_app, !length_app, <- app_assoc.
  f_equal. rewrite !length_fmap. cbn [length fmap list_fmap app].
  replace (k - 21 - length (product self))%nat
    with (S (k - 21 - (length (product self) + 1)))%nat by lia.
  reflexivity.
Qed.

Lemma product_trailing_nul_is_invisible_witness :
  ∃ rom, bytes toad = Ok rom ∧
         bytes (with_product toad (lit "MESHTOAD" ++ [0%N])) = Ok rom.
Proof.
  eexists. split; [vm_compute; reflexivity|].
  apply (product_trailing_nul_is_invisible toad);
    [ split; vm_compute; lia | vm_compute; lia | vm_compute; discriminate
    | vm_compute; reflexivity ].
Defined.

(** ** [hex] *)

Lemma hex_digit_is_hex_digit n : 0 ≤ n < 16 → is_hex_digit (hex_digit n).
Proof.
  intros Hn. unfold hex_digit, is_hex_digit.
  destruct (n <? 10) eqn:E; [apply Z.ltb_lt in E | apply Z.ltb_ge in E]; lia.
Qed.

Lemma hex_digit_inj n m :
  0 ≤ n < 16 → 0 ≤ m < 16 → hex_digit n = hex_digit m → n = m.
Proof.
  intros Hn Hm. unfold hex_digit.
  destruct (n <? 10) eqn:En; [apply Z.ltb_lt in En | apply Z.ltb_ge in En];
    (destruct (m <? 10) eqn:Em; [apply Z.ltb_lt in Em | apply Z.ltb_ge in Em]);
    lia.
Qed.

Lemma bytearray_hex_cons b rom :
  bytearray_hex (b :: rom)
  = hex_digit (b / 16) :: hex_digit (b `mod` 16) :: bytearray_hex rom.
Proof. reflexivity. Qed.

Lemma bytearray_hex_inj r1 r2 :
  Forall is_byte r1 → Forall is_byte r2 →
  bytearray_hex r1 = bytearray_hex r2 → r1 = r2.
Proof.
  intros H1. revert r2. induction H1 as [|a r1 Ha _ IH]; intros r2 H2 H.
  - destruct H2 as [|b r2]; [done | discriminate H].
  - destruct H2 as [|b r2 Hb H2]; [discriminate H|].
    rewrite !bytearray_hex_cons in H. injection H as Hhi Hlo Hrest.
    unfold is_byte in Ha, Hb.
    apply hex_digit_inj in Hhi; [| split; [apply Z.div_pos | apply Z.div_lt_upper_bound]; lia ..].
    apply hex_digit_inj in Hlo; [| apply Z.mod_pos_bound; lia ..].
    f_equal.
    + rewrite (Z.div_mod a 16), (Z.div_mod b 16) by lia. congruence.
    + by apply IH.
Qed.

(** [hex] returns for the descriptors for which [bytes] does, with two
    characters per byte of the image, all of them lowercase hexadecimal
    digits; and the string determines the image. *)
Theorem hex_faithful self h :
  hex self = Ok h →
  ∃ rom, bytes self = Ok rom ∧
         length h = (2 * length rom)%nat ∧
         Forall is_hex_digit h ∧
         ∀ other, hex other = Ok h → bytes other = Ok rom.
Proof.
  unfold hex. intros H.
  destruct (bytes self) as [rom|e] eqn:E; [|discriminate H].
  injection H as <-. exists rom. split; [done|].
  pose proof (bytes_elements_are_bytes_aux _ _ E) as Hb.
  split; [|split].
  - clear. induction rom as [|b rom IH]; [done|].
    rewrite bytearray_hex_cons. cbn [length]. lia.
  - clear -Hb. induction Hb as [|b rom Hb _ IH]; [constructor|].
    rewrite bytearray_hex_cons. unfold is_byte in Hb.
    repeat (apply Forall_cons_2; [apply hex_digit_is_hex_digit|]);
      [ split; [apply Z.div_pos | apply Z.div_lt_upper_bound]; lia
      | apply Z.mod_pos_bound; lia | exact IH ].
  - intros other H. destruct (bytes other) as [rom'|e] eqn:E'; [|discriminate H].
    simpl in H. injection H as H. f_equal.
    apply bytearray_hex_inj; [by eapply bytes_elements_are_bytes_aux | done | done].
Qed.

Lemma hex_faithful_witness :
  ∃ h, hex toad = Ok h ∧ length h = 512%nat ∧
       take 20 h = lit "5312cc00861a12550201".
Proof.
  destruct (hex toad) as [h|e] eqn:E; [|vm_compute in E; discriminate E].
  exists h. split; [reflexivity|].
  destruct (hex_faithful toad h E) as (rom & Hrom & Hlen & _).
  split.
  - rewrite Hlen. vm_compute in Hrom. injection Hrom as <-. reflexivity.
  - vm_compute in E. injection E as <-. reflexivity.
Defined.

(** * Further properties of the device operations *)

Section OperationProperties.

Context {Dev : Type}.
Variable exec :
  list str → Dev → gmap str (list Z) → Z * Dev * gmap str (list Z).

Implicit Types s : state (Dev:=Dev).

(** ** [read] *)

(** [read] removes a stale [read_eeprom.bin], so the programmer never
    sees one.  With the outcome of the programmer on those files: a status
    other than 0 raises [CalledProcessError] and the files stay as the
    programmer left them; status 0 without the file raises
    [FileNotFoundError]; status 0 with the file returns its content and
    deletes it, touching no other file. *)
Theorem read_returns_programmer_output self bin s code dev fs r s' :
  exec (read_argv (size self) bin) (device s)
       (delete read_eeprom_bin (files s)) = (code, dev, fs) →
  read exec self bin s = (r, s') →
  device s' = dev ∧
  (code ≠ 0 →
   r = Raise (CalledProcessError code (read_argv (size self) bin)) ∧
   files s' = fs) ∧
  (code = 0 → fs !! read_eeprom_bin = None →
   r = Raise (FileNotFoundError read_eeprom_bin) ∧ files s' = fs) ∧
  (code = 0 → ∀ data, fs !! read_eeprom_bin = Some data →
   r = Ok data ∧ files s' = delete read_eeprom_bin fs).
Proof.
  intros Hexec H. unfold read_argv in *.
  change (lit "read_eeprom.bin") with read_eeprom_bin in *.
  unfold read, mbind, M_bind, os_path_exists, os_remove, subprocess_run,
    open_rb_read, mret, M_ret in H.
  destruct (files s !! read_eeprom_bin) as [old|] eqn:Hold.
  - rewrite bool_decide_eq_true_2 in H by done. rewrite Hold in H.
    cbn [device files with_events with_files] in H. rewrite Hexec in H.
    destruct (code =? 0) eqn:Hc;
      [apply Z.eqb_eq in Hc as -> | apply Z.eqb_neq in Hc];
      cbn [device files with_events with_files] in H.
    + destruct (fs !! read_eeprom_bin) as [data|] eqn:Hfile;
        cbn [device files with_events with_files] in H;
        rewrite ?Hfile in H; injection H as <- <-;
        cbn [device files with_events with_files];
        (split; [reflexivity|]); (split; [done|]); (split; [done|]).
      * intros _ data' [= <-]. done.
      * intros _ data' [=].
    + injection H as <- <-. cbn [device files with_events with_files].
      split; [reflexivity|]. split; [done|]. split; [done|]. done.
  - rewrite bool_decide_eq_false_2 in H by (intros [? ?]; congruence).
    rewrite delete_id in Hexec by done. rewrite Hexec in H.
    destruct (code =? 0) eqn:Hc;
      [apply Z.eqb_eq in Hc as -> | apply Z.eqb_neq in Hc];
      cbn [device files with_events with_files] in H.
    + destruct (fs !! read_eeprom_bin) as [data|] eqn:Hfile;
        cbn [device files with_events with_files] in H;
        rewrite ?Hfile in H; injection H as <- <-;
        cbn [device files with_events with_files];
        (split; [reflexivity|]); (split; [done|]); (split; [done|]).
      * intros _ data' [= <-]. done.
      * intros _ data' [=].
    + injection H as <- <-. cbn [device files with_events with_files].
      split; [reflexivity|]. split; [done|]. split; [done|]. done.
Qed.


(** ** [flash] *)

(** What [flash] hands to the programmer is the image and nothing stale:
    whatever [write_eeprom.bin] held before, at the invocation it holds
    the bytes of [bytes].  A status other than 0 raises
    [CalledProcessError] and leaves the file where it is; status 0 deletes
    it and returns, or raises [FileNotFoundError] when the programmer has
    removed it. *)
Theorem flash_hands_over_image self bin s rom code dev fs r s' :
  bytes self = Ok rom →
  exec (write_argv (size self) bin) (device s)
       (<[write_eeprom_bin:=rom]> (files s)) = (code, dev, fs) →
  flash exec self bin s = (r, s') →
  device s' = dev ∧
  (code ≠ 0 →
   r = Raise (CalledProcessError code (write_argv (size self) bin)) ∧
   files s' = fs) ∧
  (code = 0 → fs !! write_eeprom_bin = None →
   r = Raise (FileNotFoundError write_eeprom_bin) ∧ files s' = fs) ∧
  (code = 0 → is_Some (fs !! write_eeprom_bin) →
   r = Ok 0 ∧ files s' = delete write_eeprom_bin fs).
Proof.
  intros Hrom Hexec H. unfold write_argv in *.
  change (lit "write_eeprom.bin") with write_eeprom_bin in *.
  unfold flash, mbind, M_bind, os_path_exists, os_remove, open_wb, lift,
    f_write, subprocess_run, mret, M_ret in H.
  rewrite Hrom in H.
  assert (∀ F : gmap str (list Z),
            alter (λ old, old ++ rom) write_eeprom_bin (<[write_eeprom_bin:=[]]> F)
            = <[write_eeprom_bin:=rom]> F) as Halter
    by (intros F; by rewrite alter_insert_eq).
  destruct (files s !! write_eeprom_bin) as [old|] eqn:Hold.
  - rewrite bool_decide_eq_true_2 in H by done. rewrite Hold in H.
    cbn [device files with_events with_files] in H.
    rewrite Halter, insert_delete_eq, Hexec in H.
    destruct (code =? 0) eqn:Hc;
      [apply Z.eqb_eq in Hc as -> | apply Z.eqb_neq in Hc];
      cbn [device files with_events with_files] in H.
    + destruct (fs !! write_eeprom_bin) as [data|] eqn:Hfile;
        injection H as <- <-;
        cbn [device files with_events with_files];
        (split; [reflexivity|]); (split; [done|]); (split; [done|]).
      * done.
      * by intros _ [? ?].
    + injection H as <- <-. cbn [device files with_events with_files].
      split; [reflexivity|]. split; [done|]. split; [done|]. done.
  - rewrite bool_decide_eq_false_2 in H by (intros [? ?]; congruence).
    cbn [device files with_events with_files] in H.
    rewrite Halter, Hexec in H.
    destruct (code =? 0) eqn:Hc;
      [apply Z.eqb_eq in Hc as -> | apply Z.eqb_neq in Hc];
      cbn [device files with_events with_files] in H.
    + destruct (fs !! write_eeprom_bin) as [data|] eqn:Hfile;
        injection H as <- <-;
        cbn [device files with_events with_files];
        (split; [reflexivity|]); (split; [done|]); (split; [done|]).
      * done.
      * by intros _ [? ?].
    + injection H as <- <-. cbn [device files with_events with_files].
      split; [reflexivity|]. split; [done|]. split; [done|]. done.
Qed.

Lemma flash_build_failure self bin s e :
  bytes self = Raise e →
  ∃ s', flash exec self bin s = (Raise e, s') ∧
        files s' = <[write_eeprom_bin:=[]]> (files s) ∧
        device s' = device s ∧
        ∃ new, events s' = events s ++ new ∧ runs new = [].
Proof.
  intros Hrom.
  unfold flash, mbind, M_bind, os_path_exists, os_remove, open_wb, lift,
    f_write, subprocess_run, mret, M_ret.
  rewrite Hrom.
  destruct (files s !! write_eeprom_bin) as [old|] eqn:Hold.
  - rewrite bool_decide_eq_true_2 by done. rewrite Hold.
    eexists. split; [reflexivity|].
    cbn [device files events with_events with_files].
    split; [by rewrite insert_delete_eq|]. split; [done|].
    eexists. split; [by rewrite <- app_assoc | done].
  - rewrite bool_decide_eq_false_2 by (intros [? ?]; congruence).
    eexists. split; [reflexivity|].
    cbn [device files events with_events with_files].
    split; [done|]. split; [done|]. by eexists.
Qed.

(** ** [verify] *)

(** [verify] does the same with [verify_eeprom.bin] and the verify
    instruction: the programmer compares the device with a fresh build of
    the image. *)
Theorem verify_hands_over_image self bin s rom code dev fs r s' :
  bytes self = Ok rom →
  exec (verify_argv (size self) bin) (device s)
       (<[verify_eeprom_bin:=rom]> (files s)) = (code, dev, fs) →
  verify exec self bin s = (r, s') →
  device s' = dev ∧
  (code ≠ 0 →
   r = Raise (CalledProcessError code (verify_argv (size self) bin)) ∧
   files s' = fs) ∧
  (code = 0 → fs !! verify_eeprom_bin = None →
   r = Raise (FileNotFoundError verify_eeprom_bin) ∧ files s' = fs) ∧
  (code = 0 → is_Some (fs !! verify_eeprom_bin) →
   r = Ok 0 ∧ files s' = delete verify_eeprom_bin fs).
Proof.
  intros Hrom Hexec H. unfold verify_argv in *.
  change (lit "verify_eeprom.bin") with verify_eeprom_bin in *.
  unfold verify, mbind, M_bind, os_path_exists, os_remove, open_wb, lift,
    f_write, subprocess_run, mret, M_ret in H.
  rewrite Hrom in H.
  assert (∀ F : gmap str (list Z),
            alter (λ old, old ++ rom) verify_eeprom_bin (<[verify_eeprom_bin:=[]]> F)
            = <[verify_eeprom_bin:=rom]> F) as Halter
    by (intros F; by rewrite alter_insert_eq).
  destruct (files s !! verify_eeprom_bin) as [old|] eqn:Hold.
  - rewrite bool_decide_eq_true_2 in H by done. rewrite Hold in H.
    cbn [device files with_events with_files] in H.
    rewrite Halter, insert_delete_eq, Hexec in H.
    destruct (code =? 0) eqn:Hc;
      [apply Z.eqb_eq in Hc as -> | apply Z.eqb_neq in Hc];
      cbn [device files with_events with_files] in H.
    + destruct (fs !! verify_eeprom_bin) as [data|] eqn:Hfile;
        injection H as <- <-;
        cbn [device files with_events with_files];
        (split; [reflexivity|]); (split; [done|]); (split; [done|]).
      * done.
      * by intros _ [? ?].
    + injection H as <- <-. cbn [device files with_events with_files].
      split; [reflexivity|]. split; [done|]. split; [done|]. done.
  - rewrite bool_decide_eq_false_2 in H by (intros [? ?]; congruence).
    cbn [device files with_events with_files] in H.
    rewrite Halter, Hexec in H.
    destruct (code =? 0) eqn:Hc;
      [apply Z.eqb_eq in Hc as -> | apply Z.eqb_neq in Hc];
      cbn [device files with_events with_files] in H.
    + destruct (fs !! verify_eeprom_bin) as [data|] eqn:Hfile;
        injection H as <- <-;
        cbn [device files with_events with_files];
        (split; [reflexivity|]); (split; [done|]); (split; [done|]).
      * done.
      * by intros _ [? ?].
    + injection H as <- <-. cbn [device files with_events with_files].
      split; [reflexivity|]. split; [done|]. split; [done|]. done.
Qed.

Lemma verify_build_failure self bin s e :
  bytes self = Raise e →
  ∃ s', verify exec self bin s = (Raise e, s') ∧
        files s' = <[verify_eeprom_bin:=[]]> (files s) ∧
        device s' = device s ∧
        ∃ new, events s' = events s ++ new ∧ runs new = [].
Proof.
  intros Hrom.
  unfold verify, mbind, M_bind, os_path_exists, os_remove, open_wb, lift,
    f_write, subprocess_run, mret, M_ret.
  rewrite Hrom.
  destruct (files s !! verify_eeprom_bin) as [old|] eqn:Hold.
  - rewrite bool_decide_eq_true_2 by done. rewrite Hold.
    eexists. split; [reflexivity|].
    cbn [device files events with_events with_files].
    split; [by rewrite insert_delete_eq|]. split; [done|].
    eexists. split; [by rewrite <- app_assoc | done].
  - rewrite bool_decide_eq_false_2 by (intros [? ?]; congruence).
    eexists. split; [reflexivity|].
    cbn [device files events with_events with_files].
    split; [done|]. split; [done|]. by eexists.
Qed.

(** When the image cannot be built, [flash] and [verify] raise the
    exception of [bytes] without invoking the programmer, and the
    temporary file, opened before the build, stays behind empty. *)
Theorem build_failure_leaves_empty_file self bin s e :
  bytes self = Raise e →
  (∃ s', flash exec self bin s = (Raise e, s') ∧
         files s' = <[write_eeprom_bin:=[]]> (files s) ∧
         device s' = device s ∧
         ∃ new, events s' = events s ++ new ∧ runs new = []) ∧
  (∃ s', verify exec self bin s = (Raise e, s') ∧
         files s' = <[verify_eeprom_bin:=[]]> (files s) ∧
         device s' = device s ∧
         ∃ new, events s' = events s ++ new ∧ runs new = []).
Proof.
  intros H. split; [by apply flash_build_failure | by apply verify_build_failure].
Qed.

End OperationProperties.

(** * The serial numbers that the loop can program *)

Lemma usize_nb_digits d : Unsigned.usize d = N.of_nat (Decimal.nb_digits d).
Proof. induction d; simpl; rewrite ?IHd; lia. Qed.

Lemma of_lu_lt d : (Unsigned.of_lu d < 10 ^ Unsigned.usize d)%N.
Proof.
  induction d; simpl Unsigned.of_lu; simpl Unsigned.usize;
    rewrite ?N.pow_succ_r'; simpl; lia.
Qed.

Lemma to_uint_head p :
  ∃ d', Decimal.nb_digits (Pos.to_uint p) = S (Decimal.nb_digits d') ∧
        (10 ^ Unsigned.usize d' ≤ Npos p)%N.
Proof.
  pose proof (Unsigned.of_to p) as Hof.
  pose proof (Unsigned.to_of (Pos.to_uint p)) as Hto. rewrite Hof in Hto.
  simpl in Hto.
  pose proof (Unsigned.to_uint_nonzero p) as Hnz.
  pose proof (Unsigned.to_uint_nonnil p) as Hnn.
  assert (Decimal.nzhead (Pos.to_uint p) = Pos.to_uint p) as Hh.
  { unfold Decimal.unorm in Hto.
    destruct (Decimal.nzhead (Pos.to_uint p)) eqn:E;
      [by destruct Hnz | by symmetry ..]. }
  destruct (Pos.to_uint p) as [|d'|d'|d'|d'|d'|d'|d'|d'|d'|d'] eqn:Ed; try done.
  1:{ exfalso. simpl in Hh. pose proof (nb_digits_nzhead d') as Hle.
      rewrite Hh in Hle. simpl in Hle. lia. }
  all: exists d'; split; [reflexivity|];
    simpl in Hof; injection Hof as Hof;
    pose proof (Unsigned.of_uint_acc_rev d') as Hacc;
    match type of Hof with Pos.of_uint_acc _ ?k = _ => specialize (Hacc k) end;
    rewrite Hof in Hacc; rewrite Hacc; nia.
Qed.

Lemma nb_digits_to_uint p (n : nat) :
  Decimal.nb_digits (Pos.to_uint p) = S n ↔
  (10 ^ N.of_nat n ≤ Npos p < 10 ^ N.of_nat (S n))%N.
Proof.
  destruct (to_uint_head p) as (d' & Hd & Hlo).
  rewrite usize_nb_digits in Hlo.
  assert (Npos p < 10 ^ N.of_nat (S (Decimal.nb_digits d')))%N as Hhi.
  { rewrite <- Hd, <- nb_digits_rev, <- usize_nb_digits.
    rewrite <- (Unsigned.of_to p), Unsigned.of_uint_alt. apply of_lu_lt. }
  rewrite Hd. generalize dependent (Decimal.nb_digits d'). intros m _ Hlo Hhi.
  split.
  - intros [= ->]. done.
  - intros [Hlo' Hhi']. f_equal.
    assert (10 ^ N.of_nat m < 10 ^ N.of_nat (S n))%N as H1 by lia.
    assert (10 ^ N.of_nat n < 10 ^ N.of_nat (S m))%N as H2 by lia.
    apply N.pow_lt_mono_r_iff in H1; [|lia].
    apply N.pow_lt_mono_r_iff in H2; [|lia]. lia.
Qed.

Lemma length_string_of_uint d :
  String.length (NilEmpty.string_of_uint d) = Decimal.nb_digits d.
Proof. induction d; simpl; congruence. Qed.

Lemma length_lit (t : string) : length (lit t) = String.length t.
Proof.
  unfold lit. rewrite length_fmap.
  induction t as [|a t IH]; simpl; congruence.
Qed.

Lemma length_str_of_int_8 (z : Z) :
  length (str_of_int z) = 8%nat ↔
  10000000 ≤ z ≤ 99999999 ∨ -9999999 ≤ z ≤ -1000000.
Proof.
  unfold str_of_int. rewrite length_lit.
  destruct z as [|p|p]; simpl.
  - split; [discriminate | lia].
  - rewrite length_string_of_uint, (nb_digits_to_uint p 7).
    change (10 ^ N.of_nat 7)%N with 10000000%N.
    change (10 ^ N.of_nat 8)%N with 100000000%N. lia.
  - rewrite length_string_of_uint.
    assert (S (Decimal.nb_digits (Pos.to_uint p)) = 8%nat
            ↔ Decimal.nb_digits (Pos.to_uint p) = 7%nat) as -> by lia.
    rewrite (nb_digits_to_uint p 6).
    change (10 ^ N.of_nat 6)%N with 1000000%N.
    change (10 ^ N.of_nat 7)%N with 10000000%N. lia.
Qed.

(** The constructor call of the batch loop succeeds exactly for the
    counters whose decimal form has eight characters, the counters of
    eight digits and the negative ones of seven digits with their sign,
    and a product shorter than 95. *)
Theorem loop_constructor_accepts (mj mn z : Z) (p : str) :
  (∃ self, eepCH341_default mj mn (str_of_int z) p = Ok self) ↔
  (10000000 ≤ z ≤ 99999999 ∨ -9999999 ≤ z ≤ -1000000) ∧
  (length p < 95)%nat.
Proof.
  rewrite <- length_str_of_int_8. unfold eepCH341_default, __init__. split.
  - intros [self H].
    destruct (length (str_of_int z) =? 8)%nat eqn:Hs; [|discriminate].
    destruct (length p <? 95)%nat eqn:Hp; [|discriminate].
    apply Nat.eqb_eq in Hs. apply Nat.ltb_lt in Hp. done.
  - intros [Hs Hp]. apply Nat.eqb_eq in Hs. apply Nat.ltb_lt in Hp.
    rewrite Hs, Hp. by eexists.
Qed.

(** * Further properties of the batch loop *)

Section IterationProperties.

Context {Dev : Type}.
Variable exec :
  list str → Dev → gmap str (list Z) → Z * Dev * gmap str (list Z).

Implicit Types s : state (Dev:=Dev).

Local Abbreviation Stmt := (M (Dev:=Dev)).

(** ** A counter that the constructor refuses *)

(** With a counter outside those two ranges the iteration raises
    [ValueError] as soon as the operator has confirmed: the prompt is the
    only thing that has happened. *)
Theorem iteration_rejects_serial a s line s0 :
  input (lit "Attach serial number: " ++ str_of_int (cur_serial s)) s
    = (Ok line, s0) →
  ¬ (10000000 ≤ cur_serial s ≤ 99999999 ∨ -9999999 ≤ cur_serial s ≤ -1000000) →
  iteration exec a s
    = (Raise (ValueError (lit "Serial number must be 8 digits")), s0) ∧
  events s0 = events s
                ++ [Prompt (lit "Attach serial number: "
                              ++ str_of_int (cur_serial s))] ∧
  files s0 = files s ∧ device s0 = device s ∧ cur_serial s0 = cur_serial s.
Proof.
  intros Hin Hr. rewrite <- length_str_of_int_8 in Hr.
  assert (events s0 = events s
            ++ [Prompt (lit "Attach serial number: " ++ str_of_int (cur_serial s))]
          ∧ files s0 = files s ∧ device s0 = device s
          ∧ cur_serial s0 = cur_serial s) as (Hev & Hf & Hd & Hc).
  { unfold input in Hin. destruct (stdin s); [discriminate|].
    by injection Hin as _ <-. }
  split; [|done].
  unfold iteration, mbind, M_bind, get_cur_serial, lift.
  rewrite Hin, Hc. unfold eepCH341_default, __init__.
  apply Nat.eqb_neq in Hr. by rewrite Hr.
Qed.

(** ** An image that cannot be built *)

(** The constructor does not look at the versions nor at the characters
    of the product, so [bytes] can fail in the loop.  It is called by
    [flash], after the first read and the erase: the iteration raises the
    exception of [bytes] with the device already erased, and an empty
    [write_eeprom.bin] stays behind. *)
Theorem iteration_build_failure_after_erase a s line s0 eeprom data s1 c s2 e :
  input (lit "Attach serial number: " ++ str_of_int (cur_serial s)) s
    = (Ok line, s0) →
  eepCH341_default (args_majorVersion a) (args_minorVersion a)
    (str_of_int (cur_serial s)) (args_product a) = Ok eeprom →
  read exec eeprom (args_bin a) s0 = (Ok data, s1) →
  Z.of_nat (length data) = size_bytes eeprom →
  erase exec eeprom (args_bin a) s1 = (Ok c, s2) →
  bytes eeprom = Raise e →
  ∃ s3 new,
    iteration exec a s = (Raise e, s3) ∧
    files s3 = <[write_eeprom_bin:=[]]> (files s2) ∧
    device s3 = device s2 ∧
    cur_serial s3 = cur_serial s ∧
    events s3 = events s ++ new ∧
    runs new = [(read_argv (lit "24c02") (args_bin a), 0);
                (erase_argv (lit "24c02") (args_bin a), 0)].
Proof.
  intros Hin Hee Hread Hlen Herase Hbytes.
  destruct (tracked_input _ _ _ _ Hin) as (new0 & Hev0 & Hc0 & Hr0).
  destruct (tracked_read exec _ _ _ _ _ Hread) as (new1 & Hev1 & Hc1 & Hr1).
  destruct (tracked_erase exec _ _ _ _ _ Herase) as (new2 & Hev2 & Hc2 & Hr2).
  destruct (flash_build_failure exec eeprom (args_bin a) s2 e Hbytes)
    as (s3 & Hflash & Hf & Hd & new3 & Hev3 & Hr3).
  destruct (tracked_flash exec _ _ _ _ _ Hflash) as (_ & _ & Hc3 & _).
  rewrite Z.add_0_r in Hc0, Hc1, Hc2.
  exists s3, (new0 ++ new1 ++ new2 ++ new3).
  split.
  { unfold iteration, mbind, M_bind, get_cur_serial, lift, raise.
    rewrite Hin, Hc0, Hee, Hread.
    rewrite bool_decide_eq_false_2 by (intros Hne; by apply Hne).
    unfold mret, M_ret. by rewrite Herase, Hflash. }
  split; [done|]. split; [done|]. split; [lia|].
  split; [by rewrite Hev3, Hev2, Hev1, Hev0, <- !app_assoc|].
  rewrite !runs_app, Hr0, Hr1, Hr2, Hr3.
  by destruct (default_size_label _ _ _ _ _ Hee) as [-> _].
Qed.

(** ** What a full iteration writes and shows *)

Lemma extends_trans s1 s2 s3 : extends s1 s2 → extends s2 s3 → extends s1 s3.
Proof.
  intros [n1 H1] [n2 H2]. exists (n1 ++ n2). by rewrite H2, H1, app_assoc.
Qed.

Lemma emitted_l e s s1 s2 : extends s s1 → emitted e s1 s2 → emitted e s s2.
Proof.
  intros [n1 H1] (n2 & H2 & Hin). exists (n1 ++ n2).
  split; [by rewrite H2, H1, app_assoc | set_solver].
Qed.

Lemma emitted_r e s s1 s2 : emitted e s s1 → extends s1 s2 → emitted e s s2.
Proof.
  intros (n1 & H1 & Hin) [n2 H2]. exists (n1 ++ n2).
  split; [by rewrite H2, H1, app_assoc | set_solver].
Qed.

Lemma tracked_extends {A} (m : Stmt A) d c s r s' :
  tracked m d c → m s = (r, s') → extends s s'.
Proof. intros Hm H. destruct (Hm _ _ _ H) as (new & Hev & _). by exists new. Qed.

Tactic Notation "step" hyp(H) "as" ident(a) ident(sn) ident(E) :=
  unfold mbind at 1, M_bind at 1 in H;
  match type of H with
  | match ?m ?s with _ => _ end = _ =>
      destruct (m s) as [[a|?] sn] eqn:E; [|discriminate H]
  end.

Lemma send_image_emits path argv self s c s' :
  (ex ← os_path_exists path;
   _ ← (if ex : bool then os_remove path else mret ());
   _ ← open_wb path;
   rom ← lift (bytes self);
   _ ← f_write path rom;
   r ← subprocess_run exec argv;
   _ ← os_remove path;
   mret r) s = (Ok c, s') →
  ∃ rom, bytes self = Ok rom ∧ emitted (Write path rom) s s'.
Proof.
  intros H.
  step H as ex s1 E1. step H as u1 s2 E2. step H as u2 s3 E3.
  step H as rom s4 E4. step H as u3 s5 E5. step H as r s6 E6.
  step H as u4 s7 E7. injection H as _ <-.
  injection E4 as Hrom <-. exists rom. split; [done|].
  apply (tracked_extends _ _ _ _ _ _ (tracked_os_path_exists path)) in E1.
  assert (extends s1 s2) as X2.
  { destruct ex; [apply (tracked_extends _ _ _ _ _ _ (tracked_os_remove path) E2)
                 | apply (tracked_extends _ _ _ _ _ _ (tracked_ret ()) E2)]. }
  apply (tracked_extends _ _ _ _ _ _ (tracked_open_wb path)) in E3.
  apply (tracked_extends _ _ _ _ _ _ (tracked_subprocess_run exec argv)) in E6.
  apply (tracked_extends _ _ _ _ _ _ (tracked_os_remove path)) in E7.
  assert (emitted (Write path rom) s3 s5) as Hw.
  { injection E5 as _ <-. exists [Write path rom]. split; [done | set_solver]. }
  eapply emitted_r; [|exact E7]. eapply emitted_r; [|exact E6].
  eapply emitted_l; [|exact Hw].
  eapply extends_trans; [exact E1|]. eapply extends_trans; [exact X2 | exact E3].
Qed.

(** An iteration that returns has built the descriptor of the counter with
    the defaults and an image of 256 bytes from it, and has written that
    same image to [write_eeprom.bin] and to [verify_eeprom.bin].  After
    the image for the verification was written it has read the device once
    more, and its last three events are the line announcing the contents,
    the slice [[0:127]] of what that read returned, at most 127 bytes, and
    an empty line; files and device are as that read left them. *)
Theorem iteration_flashes_current_serial a s s' :
  iteration exec a s = (Ok (), s') →
  ∃ eeprom rom,
    eepCH341_default (args_majorVersion a) (args_minorVersion a)
      (str_of_int (cur_serial s)) (args_product a) = Ok eeprom ∧
    bytes eeprom = Ok rom ∧
    length rom = 256%nat ∧
    emitted (Write write_eeprom_bin rom) s s' ∧
    emitted (Write verify_eeprom_bin rom) s s' ∧
    ∃ s4 read_again s5,
      emitted (Write verify_eeprom_bin rom) s s4 ∧
      read exec eeprom (args_bin a) s4 = (Ok read_again, s5) ∧
      events s' = events s5
                    ++ [Print (lit "New EEPROM Contents:");
                        PrintBytes (getslice read_again 0 127);
                        Print (lit "")] ∧
      files s' = files s5 ∧ device s' = device s5 ∧
      (length (getslice read_again 0 127) ≤ 127)%nat.
Proof.
  intros H. unfold iteration in H.
  step H as cur0 s1 E1. injection E1 as <- <-.
  step H as line s2 E2.
  step H as cur1 s3 E3. injection E3 as <- <-.
  step H as eeprom s4 E4. injection E4 as Hee <-.
  step H as read_init s5 E5.
  step H as u1 s6 E6.
  step H as c1 s7 E7.
  step H as c2 s8 E8.
  step H as c3 s9 E9.
  step H as cur2 s10 E10. injection E10 as _ <-.
  step H as u2 s11 E11.
  step H as read_again s12 E12.
  step H as u3 s13 E13.
  step H as u4 s14 E14.
  step H as u5 s15 E15.
  step H as cur3 s16 E16. injection E16 as _ <-.
  destruct (tracked_input _ _ _ _ E2) as (_ & _ & Hc2 & _).
  rewrite Z.add_0_r in Hc2. rewrite Hc2 in Hee.
  exists eeprom.
  destruct (send_image_emits _ _ _ _ _ _ E8) as (rom & Hrom & Hw).
  destruct (send_image_emits _ _ _ _ _ _ E9) as (rom' & Hrom' & Hv).
  rewrite Hrom in Hrom'. injection Hrom' as <-.
  exists rom. split; [done|]. split; [done|].
  pose proof (init_valid _ _ _ _ _ _ _ _ _ _ _ Hee) as Hvalid.
  destruct (default_size_label _ _ _ _ _ Hee) as [_ Hsz].
  split.
  { pose proof (bytes_length _ _ Hvalid ltac:(lia) Hrom) as Hl.
    destruct Hvalid as [_ Hp]. lia. }
  assert (extends s s7) as X7.
  { eapply extends_trans; [exact (tracked_extends _ _ _ _ _ _ (tracked_input _) E2)|].
    eapply extends_trans; [exact (tracked_extends _ _ _ _ _ _ (tracked_read exec _ _) E5)|].
    eapply extends_trans;
      [|exact (tracked_extends _ _ _ _ _ _ (tracked_erase exec _ _) E7)].
    destruct (bool_decide _);
      [ exact (tracked_extends _ _ _ _ _ _ (tracked_raise _) E6)
      | exact (tracked_extends _ _ _ _ _ _ (tracked_ret _) E6) ]. }
  pose proof (tracked_extends _ _ _ _ _ _ (tracked_flash exec _ _) E8) as X8.
  pose proof (tracked_extends _ _ _ _ _ _ (tracked_verify exec _ _) E9) as X9.
  pose proof (tracked_extends _ _ _ _ _ _ (tracked_print _) E11) as X11.
  pose proof (tracked_extends _ _ _ _ _ _ (tracked_read exec _ _) E12) as X12.
  pose proof (tracked_extends _ _ _ _ _ _ (tracked_print _) E13) as X13.
  pose proof (tracked_extends _ _ _ _ _ _ (tracked_print _) E15) as X15.
  assert (emitted (PrintBytes (getslice read_again 0 127)) s13 s14) as Hshow.
  { injection E14 as _ <-. eexists. split; [reflexivity | set_solver]. }
  assert (extends s14 s') as Xend.
  { eapply extends_trans; [exact X15|]. injection H as <-.
    exists []. by rewrite app_nil_r. }
  assert (extends s9 s13) as X913
    by (eapply extends_trans; [exact X11|]; eapply extends_trans; done).
  split; [|split].
  - eapply emitted_r; [eapply emitted_l; [exact X7 | exact Hw]|].
    eapply extends_trans; [exact X9|]. eapply extends_trans; [exact X913|].
    destruct Hshow as (n & Hn & _). eapply extends_trans; [by exists n | exact Xend].
  - eapply emitted_r;
      [eapply emitted_l; [eapply extends_trans; [exact X7 | exact X8] | exact Hv]|].
    eapply extends_trans; [exact X913|].
    destruct Hshow as (n & Hn & _). eapply extends_trans; [by exists n | exact Xend].
  - exists s11, read_again, s12. split.
    { eapply emitted_r;
        [eapply emitted_l; [eapply extends_trans; [exact X7 | exact X8] | exact Hv]
        | exact X11]. }
    split; [exact E12|].
    unfold print, emit in E13, E15. unfold emit in E14.
    unfold set_cur_serial in H.
    injection E13 as _ <-. injection E14 as _ <-. injection E15 as _ <-.
    injection H as <-. cbn [events files device with_events].
    split; [by rewrite <- !app_assoc|]. split; [done|]. split; [done|].
    unfold getslice. rewrite length_take. lia.
Qed.

(** ** The confirmations of the operator *)

Lemma consumes_bind {A B} (m : Stmt A) (f : A → Stmt B) k1 k2 :
  consumes m k1 → (∀ a, consumes (f a) k2) → consumes (m ≫= f) (k1 + k2).
Proof.
  intros Hm Hf s r s' H. unfold mbind, M_bind in H.
  destruct (m s) as [[a|e] s1] eqn:E.
  - specialize (Hm _ _ _ E). specialize (Hf a _ _ _ H). simpl in Hm.
    destruct r; [|done]. destruct Hm as (u1 & Hl1 & H1), Hf as (u2 & Hl2 & H2).
    exists (u1 ++ u2). split; [rewrite length_app; lia|].
    by rewrite H1, H2, app_assoc.
  - by injection H as <- <-.
Qed.

Lemma consumes_none {A} (m : Stmt A) :
  (∀ s r s', m s = (r, s') → stdin s' = stdin s) → consumes m 0.
Proof.
  intros Hm s r s' H. destruct r; [|done]. exists []. by rewrite (Hm _ _ _ H).
Qed.

Lemma consumes_bind_none {A B} (m : Stmt A) (f : A → Stmt B) k :
  (∀ s r s', m s = (r, s') → stdin s' = stdin s) →
  (∀ a, consumes (f a) k) → consumes (m ≫= f) k.
Proof. intros Hm. apply (consumes_bind m f 0 k). by apply consumes_none. Qed.

Lemma stdin_os_remove path s r s' :
  os_remove path s = (r, s') → stdin s' = stdin s.
Proof. unfold os_remove. destruct (files s !! path); by intros [= <- <-]. Qed.

Lemma stdin_open_rb_read path s r s' :
  open_rb_read path s = (r, s') → stdin s' = stdin s.
Proof. unfold open_rb_read. destruct (files s !! path); by intros [= <- <-]. Qed.

Lemma stdin_subprocess_run argv s r s' :
  subprocess_run exec argv s = (r, s') → stdin s' = stdin s.
Proof.
  unfold subprocess_run. destruct (exec _ _ _) as [[code dev] fs].
  destruct (code =? 0); by intros [= <- <-].
Qed.

Ltac stdin_kept :=
  first [ apply stdin_os_remove | apply stdin_open_rb_read
        | apply stdin_subprocess_run
        | by intros ??? [= <- <-]
        | intros ???; case_match;
            first [ apply stdin_os_remove | by intros [= <- <-] ] ].

Ltac consumes_none_step := apply consumes_bind_none; [stdin_kept | intros ?].

Lemma consumes_erase self bin : consumes (erase exec self bin) 0.
Proof. unfold erase. consumes_none_step. apply consumes_none. stdin_kept. Qed.

Lemma consumes_read self bin : consumes (read exec self bin) 0.
Proof. unfold read. do 5 consumes_none_step. apply consumes_none. stdin_kept. Qed.

Lemma consumes_flash self bin : consumes (flash exec self bin) 0.
Proof. unfold flash. do 7 consumes_none_step. apply consumes_none. stdin_kept. Qed.

Lemma consumes_verify self bin : consumes (verify exec self bin) 0.
Proof. unfold verify. do 7 consumes_none_step. apply consumes_none. stdin_kept. Qed.

Lemma consumes_input prompt : consumes (input (Dev:=Dev) prompt) 1.
Proof.
  intros s r s' H. unfold input in H.
  destruct (stdin s) as [|line rest]; injection H as <- <-; [done|].
  by exists [line].
Qed.

Ltac consumes_op_step lem :=
  apply (consumes_bind _ _ 0); [apply lem | intros ?].

(** An iteration that returns has taken one confirmation. *)
Lemma consumes_iteration a : consumes (iteration exec a) 1.
Proof.
  unfold iteration. consumes_none_step.
  apply (consumes_bind _ _ 1 0); [apply consumes_input | intros ?].
  do 2 consumes_none_step.
  consumes_op_step consumes_read. consumes_none_step.
  consumes_op_step consumes_erase.
  consumes_op_step consumes_flash.
  consumes_op_step consumes_verify.
  do 2 consumes_none_step.
  consumes_op_step consumes_read.
  do 4 consumes_none_step.
  apply consumes_none. stdin_kept.
Qed.

Lemma iteration_eof a s :
  stdin s = [] → ∃ s', iteration exec a s = (Raise EOFError, s').
Proof.
  intros Hs. unfold iteration, mbind, M_bind, get_cur_serial, input.
  rewrite Hs. by eexists.
Qed.

(** The loop completes at most one iteration per confirmation of the
    operator, the counter counts the completed iterations, and the loop
    has stopped with an exception once the confirmations are used up: with
    [EOFError] when every iteration before has completed. *)
Theorem batch_loop_bounded_by_confirmations a fuel : ∀ s o s',
  batch_loop exec a fuel s = (o, s') →
  ∃ n : nat,
    (n ≤ fuel)%nat ∧ (n ≤ length (stdin s))%nat ∧
    cur_serial s' = cur_serial s + Z.of_nat n ∧
    (o = None → n = fuel) ∧
    (n = length (stdin s) → (n < fuel)%nat → o = Some EOFError).
Proof.
  induction fuel as [|fuel IH]; intros s o s' H; simpl in H.
  - injection H as <- <-. exists 0%nat.
    split; [lia|]. split; [lia|]. split; [lia|]. split; [done | lia].
  - destruct (iteration exec a s) as [[[]|e] s1] eqn:E.
    + destruct (tracked_iteration exec a _ _ _ E) as (_ & _ & Hc & _).
      destruct (consumes_iteration a _ _ _ E) as (used & Hl & Hs).
      destruct (IH _ _ _ H) as (n & Hn & Hin & Hc' & Ho & Heof).
      exists (S n). rewrite Hs, length_app, Hl.
      split; [lia|]. split; [lia|]. split; [lia|]. split.
      * intros ->. by rewrite Ho.
      * intros Hlen Hlt. apply Heof; lia.
    + injection H as <- <-.
      destruct (tracked_iteration exec a _ _ _ E) as (_ & _ & Hc & _).
      exists 0%nat.
      split; [lia|]. split; [lia|]. split; [lia|]. split; [done|].
      intros Hlen _. symmetry in Hlen. apply length_zero_iff_nil in Hlen.
      destruct (iteration_eof a s Hlen) as [s2 E2]. congruence.
Qed.

End IterationProperties.

(** ** The further properties on the simulated programmer *)

Lemma read_returns_programmer_output_witness :
  ∃ s',
    read (programmer None) toad (lit "ch341eeprom")
      (bench 256 {[ read_eeprom_bin := [1; 2; 3] ]})
      = (Ok (replicate 256 0xFF), s') ∧
    files s' = ∅.
Proof.
  destruct (read (programmer None) toad (lit "ch341eeprom")
              (bench 256 {[ read_eeprom_bin := [1; 2; 3] ]})) as [r s'] eqn:E.
  destruct (read_returns_programmer_output (programmer None) toad
              (lit "ch341eeprom")
              (bench 256 {[ read_eeprom_bin := [1; 2; 3] ]})
              0 (replicate 256 0xFF)
              {[ read_eeprom_bin := replicate 256 0xFF ]} r s')
    as (_ & _ & _ & Hok); [vm_compute; reflexivity | exact E |].
  destruct (Hok eq_refl (replicate 256 0xFF)) as [-> Hf];
    [apply lookup_singleton_eq|].
  exists s'. split; [reflexivity|]. rewrite Hf. apply delete_singleton_eq.
Defined.

Lemma flash_hands_over_image_witness :
  ∃ s',
    bytes toad = Ok toad_image ∧
    flash (programmer None) toad (lit "ch341eeprom")
      (bench 256 {[ write_eeprom_bin := [9; 9] ]}) = (Ok 0, s') ∧
    device s' = toad_image ∧ files s' = ∅.
Proof.
  assert (bytes toad = Ok toad_image) as Hrom by (vm_compute; reflexivity).
  destruct (flash (programmer None) toad (lit "ch341eeprom")
              (bench 256 {[ write_eeprom_bin := [9; 9] ]})) as [r s'] eqn:E.
  destruct (flash_hands_over_image (programmer None) toad (lit "ch341eeprom")
              (bench 256 {[ write_eeprom_bin := [9; 9] ]})
              toad_image 0 toad_image
              (<[write_eeprom_bin:=toad_image]> {[ write_eeprom_bin := [9; 9] ]})
              r s')
    as (Hd & _ & _ & Hok);
    [exact Hrom | vm_compute; reflexivity | exact E |].
  destruct Hok as [-> Hf];
    [reflexivity | rewrite lookup_insert_eq; by eexists |].
  exists s'. split; [exact Hrom|]. split; [reflexivity|].
  split; [exact Hd|]. rewrite Hf, delete_insert_eq. apply delete_singleton_eq.
Defined.

Lemma verify_hands_over_image_witness :
  ∃ s',
    bytes toad = Ok toad_image ∧
    verify (programmer None) toad (lit "ch341eeprom") (bench 256 ∅)
      = (Raise (CalledProcessError 1
                  (verify_argv (lit "24c02") (lit "ch341eeprom"))), s') ∧
    files s' !! verify_eeprom_bin = Some toad_image.
Proof.
  assert (bytes toad = Ok toad_image) as Hrom by (vm_compute; reflexivity).
  destruct (verify (programmer None) toad (lit "ch341eeprom") (bench 256 ∅))
    as [r s'] eqn:E.
  destruct (verify_hands_over_image (programmer None) toad (lit "ch341eeprom")
              (bench 256 ∅) toad_image 1 (replicate 256 0xFF)
              (<[verify_eeprom_bin:=toad_image]> ∅) r s')
    as (_ & Hfail & _);
    [exact Hrom | vm_compute; reflexivity | exact E |].
  destruct Hfail as [-> Hf]; [discriminate|].
  exists s'. split; [exact Hrom|]. split; [reflexivity|].
  rewrite Hf. apply lookup_insert_eq.
Defined.

Lemma build_failure_leaves_empty_file_witness :
  ∃ s',
    flash (programmer None) (with_majorVersion toad 300) (lit "ch341eeprom")
      (bench 256 ∅)
      = (Raise (ValueError (lit "byte must be in range(0, 256)")), s') ∧
    files s' !! write_eeprom_bin = Some [] ∧
    runs (events s') = [].
Proof.
  destruct (build_failure_leaves_empty_file (programmer None)
              (with_majorVersion toad 300) (lit "ch341eeprom") (bench 256 ∅)
              (ValueError (lit "byte must be in range(0, 256)")))
    as [(s' & Hflash & Hf & _ & new & Hev & Hr) _]; [vm_compute; reflexivity|].
  exists s'. split; [exact Hflash|]. split.
  - rewrite Hf. apply lookup_insert_eq.
  - rewrite Hev. exact Hr.
Defined.

Lemma iteration_rejects_serial_witness :
  ∃ s0,
    iteration (programmer None) default_args (bench_at 100000000 256 ∅)
      = (Raise (ValueError (lit "Serial number must be 8 digits")), s0) ∧
    runs (events s0) = [].
Proof.
  edestruct (iteration_rejects_serial (programmer None) default_args
               (bench_at 100000000 256 ∅))
    as (Hit & Hev & _);
    [vm_compute; reflexivity | cbn [cur_serial bench_at]; lia |].
  eexists. split; [exact Hit|]. rewrite Hev. reflexivity.
Defined.

Lemma iteration_build_failure_after_erase_witness :
  ∃ s3,
    iteration (programmer None) args_version_300 (bench 256 ∅)
      = (Raise (ValueError (lit "byte must be in range(0, 256)")), s3) ∧
    files s3 !! write_eeprom_bin = Some [] ∧
    runs (events s3) = [(read_argv (lit "24c02") (args_bin args_version_300), 0);
                        (erase_argv (lit "24c02") (args_bin args_version_300), 0)].
Proof.
  edestruct (iteration_build_failure_after_erase (programmer None)
               args_version_300 (bench 256 ∅))
    as (s3 & new & Hit & Hf & _ & _ & Hev & Hr);
    [ vm_compute; reflexivity | vm_compute; reflexivity
    | vm_compute; reflexivity | vm_compute; reflexivity
    | vm_compute; reflexivity | vm_compute; reflexivity | ].
  exists s3. split; [exact Hit|]. split.
  - rewrite Hf. apply lookup_insert_eq.
  - rewrite Hev. exact Hr.
Defined.

Lemma iteration_flashes_current_serial_witness :
  ∃ s' rom,
    iteration (programmer None) default_args (bench 256 ∅) = (Ok (), s') ∧
    length rom = 256%nat ∧
    emitted (Write write_eeprom_bin rom) (bench 256 ∅) s' ∧
    emitted (Write verify_eeprom_bin rom) (bench 256 ∅) s'.
Proof.
  destruct (iteration (programmer None) default_args (bench 256 ∅))
    as [r s'] eqn:E.
  assert (r = Ok ()) as -> by (vm_compute in E; by injection E as <- _).
  destruct (iteration_flashes_current_serial _ _ _ _ E)
    as (eeprom & rom & _ & _ & Hlen & Hw & Hv & _).
  exists s', rom. split; [reflexivity|]. split; [exact Hlen|].
  split; [exact Hw | exact Hv].
Defined.

Lemma batch_loop_bounded_by_confirmations_witness :
  ∃ o s',
    batch_loop (programmer None) default_args 5 (bench 256 ∅) = (o, s') ∧
    o ≠ None ∧ cur_serial s' ≤ 13374205.
Proof.
  destruct (batch_loop (programmer None) default_args 5 (bench 256 ∅))
    as [o s'] eqn:E.
  destruct (batch_loop_bounded_by_confirmations _ _ _ _ _ _ E)
    as (n & Hn & Hin & Hc & Ho & _).
  exists o, s'. split; [reflexivity|]. simpl in Hin, Hc. split.
  - intros HNone. specialize (Ho HNone). lia.
  - lia.
Defined.
